(** * TEA5767_Radio: the front-panel sketch of an FM receiver

    A shallow embedding of [TEA5767_Radio.ino] and the properties of its
    tuning loop, dial scale and status register.

    Number model.  The sketch keeps the tuning frequency in a C [float].
    In the monadic embedding a [float] is a rational number ([Q]) and the
    arithmetic on it is exact, as for the decimal frequencies the
    properties speak of; comparisons of frequencies are stated with [==],
    [<] and [<=] of [QArith].  One step of 0.1 takes the same branch in
    both arithmetics, but over a run the rounding of the target adds up:
    the module [Binary32] holds the frequency steps in IEEE single
    precision, the module [Loop32] the frequency path of the handlers and
    of [loop] in that format, and what is said of the stored frequency
    over runs is proved there.  An [int] is a [Z]: the conversion of
    [updateScale] stays inside 16 bits for the frequencies between -8104
    and 8280 MHz ([in_int_range]), which the properties of the scale
    assume where they go beyond the band; a [byte] is a [Z] reduced modulo
    256 wherever the sketch narrows to it. *)

From Stdlib Require Import ZArith QArith Qround List Bool Lia String Ascii.
From Stdlib Require Import Lqa DecimalString SpecFloat.
Import ListNotations.

Local Open Scope Z_scope.

(** ** Arduino core: bytes, bit macros, conversions *)

Module Arduino.

(** Narrowing to [uint8_t]. *)
Definition to_byte (z : Z) : Z := z mod 256.

(** [#define bitRead(value, bit) (((value) >> (bit)) & 0x01)] *)
Definition bitRead (value bit : Z) : Z := Z.land (Z.shiftr value bit) 1.

(** [#define bitSet(value, bit) ((value) |= (1UL << (bit)))], the target
    being a [byte]. *)
Definition bitSet (value bit : Z) : Z :=
  to_byte (Z.lor value (Z.shiftl 1 bit)).

(** [#define bitClear(value, bit) ((value) &= ~(1UL << (bit)))] *)
Definition bitClear (value bit : Z) : Z :=
  to_byte (Z.land value (Z.lnot (Z.shiftl 1 bit))).

(** [#define bitWrite(value, bit, bitvalue)
      ((bitvalue) ? bitSet(value, bit) : bitClear(value, bit))] *)
Definition bitWrite (value bit bitvalue : Z) : Z :=
  if bitvalue =? 0 then bitClear value bit else bitSet value bit.

(** A C condition: an [int] is true when it is not zero. *)
Definition truthy (z : Z) : bool := negb (z =? 0).

(** Conversion of a [float] to [int]: the fraction is discarded
    (rounding toward zero). *)
Definition float_to_int (x : Q) : Z := Z.quot (Qnum x) (Z.pos (Qden x)).

(** [floor] of [math.h], whose result is again a floating number. *)
Definition floor (x : Q) : Q := inject_Z (Qfloor x).

(** [x < y] on floats, as a boolean. *)
Definition Qltb (x y : Q) : bool := negb (Qle_bool y x).

(** Character constants. *)
Definition chr (c : ascii) : Z := Z.of_N (N_of_ascii c).

End Arduino.
Import Arduino.

(** ** Constants of the sketch *)

(** Encoder pins *)
Definition ENCODER_SW : Z := 0.
Definition ENCODER_A : Z := 1.
Definition ENCODER_B : Z := 4.

(** Custom characters *)
Definition SCALE_CLEAR : Z := 5.
Definition STEREO_CHAR_S : Z := 6.
Definition STEREO_CHAR_T : Z := 7.

(** Global status flags *)
Definition ST_AUTO : Z := 0.
Definition ST_STEREO : Z := 1.
Definition ST_GO_UP : Z := 2.
Definition ST_GO_DOWN : Z := 3.
Definition ST_SEARCH : Z := 4.

(** The two search directions of the TEA5767 library
    ([TEA5767_SEARCH_DIR_UP], [TEA5767_SEARCH_DIR_DOWN]). *)
Inductive search_dir : Type :=
| TEA5767_SEARCH_DIR_UP
| TEA5767_SEARCH_DIR_DOWN.

(** ** Effects

    Every call the sketch makes on the display, the tuner library and the
    board, in program order. *)

Inductive effect : Type :=
| Delay (ms : Z)
| PinMode (pin : Z)
| DigitalWrite (pin level : Z)
| AttachInterrupt (irq : Z)
| WireBegin
| LcdCreateChar (id : Z) (bitmap : list Z)
| LcdBegin (cols rows : Z)
| LcdClear
| LcdSetCursor (col row : Z)
| LcdWrite (glyph : Z)
| LcdPrintInt (n : Z)
| LcdPrintFloat (x : Q) (digits : Z)
| LcdPrintStr (s : string)
| RadioInit
| RadioSetFrequency (f : Q)
| RadioReadStatus
| RadioProcessSearch (dir : option search_dir)
| RadioSearchUp
| RadioSearchDown.

(** ** The globals and the monad of the sketch *)

(** [float frequency = 88; byte status = 0;] *)
Record machine : Type := Machine {
  frequency : Q;
  status : Z
}.

Definition power_on : machine := {| frequency := 88; status := 0 |}.

(** A computation reads and writes the globals and appends to the trace. *)
Definition M (A : Type) : Type := machine -> A * machine * list effect.

Definition ret {A} (a : A) : M A := fun m => (a, m, []).

Definition bind {A B} (c : M A) (k : A -> M B) : M B :=
  fun m =>
    let '(a, m1, t1) := c m in
    let '(b, m2, t2) := k a m1 in
    (b, m2, t1 ++ t2).

Declare Scope sketch_scope.
Delimit Scope sketch_scope with sketch.
Notation "x <- c ;; k" := (bind c (fun x => k))
  (at level 61, c at next level, right associativity) : sketch_scope.
Notation "c ;; k" := (bind c (fun _ => k))
  (at level 61, right associativity) : sketch_scope.
Local Open Scope sketch_scope.

Definition emit (e : effect) : M unit := fun m => (tt, m, [e]).
Definition get_frequency : M Q := fun m => (frequency m, m, []).
Definition put_frequency (f : Q) : M unit :=
  fun m => (tt, {| frequency := f; status := status m |}, []).
Definition get_status : M Z := fun m => (status m, m, []).
Definition put_status (s : Z) : M unit :=
  fun m => (tt, {| frequency := frequency m; status := s |}, []).

Definition when (b : bool) (c : M unit) : M unit := if b then c else ret tt.

(** Projections of a finished computation. *)
Definition result {A} (r : A * machine * list effect) : A := fst (fst r).
Definition final {A} (r : A * machine * list effect) : machine := snd (fst r).
Definition trace {A} (r : A * machine * list effect) : list effect := snd r.

(** The display and tuner calls; [setCursor] and [write] take [uint8_t]. *)
Definition lcd_setCursor (col row : Z) : M unit :=
  emit (LcdSetCursor (to_byte col) (to_byte row)).
Definition lcd_write (glyph : Z) : M unit := emit (LcdWrite (to_byte glyph)).

(** ** updateScale: the needle over the radio scale *)

(** [int lcdBase = (frequency - 88) * 4; if(lcdBase > 79) lcdBase = 79;]
    The [int] is a [Z]: the value is the one of the sketch as long as the
    conversion fits 16 bits, that is for [in_int_range] frequencies. *)
Definition lcdBase (f : Q) : Z :=
  let b := float_to_int ((f - 88) * 4) in
  if 79 <? b then 79 else b.

(** [int lcdMajor = lcdBase / 5;] *)
Definition lcdMajor (f : Q) : Z := Z.quot (lcdBase f) 5.

(** [int lcdMinor = lcdBase % 5;] *)
Definition lcdMinor (f : Q) : Z := Z.rem (lcdBase f) 5.

Definition updateScale : M unit :=
  f <- get_frequency ;;
  (if 0 <? lcdMajor f then
     lcd_setCursor (lcdMajor f - 1) 0 ;;
     lcd_write SCALE_CLEAR
   else
     lcd_setCursor (lcdMajor f) 0) ;;
  lcd_write (lcdMinor f) ;;
  when (lcdMajor f <? 15) (lcd_write SCALE_CLEAR).

(** ** The interrupt handlers *)

(** [pinB] is [digitalRead(ENCODER_B) == HIGH] after the debounce pause. *)
Definition isrEncoder (pinB : bool) : M unit :=
  emit (Delay 50) ;;
  s <- get_status ;;
  if pinB then put_status (bitWrite s ST_GO_UP 1)
  else put_status (bitWrite s ST_GO_DOWN 1).

Definition isrSwitch : M unit :=
  emit (Delay 50) ;;
  s <- get_status ;;
  if truthy (bitRead s ST_AUTO) then put_status (bitWrite s ST_AUTO 0)
  else put_status (bitWrite s ST_AUTO 1).

(** ** setup *)

Fixpoint for_each {A} (l : list A) (body : A -> M unit) : M unit :=
  match l with
  | [] => ret tt
  | x :: l' => body x ;; for_each l' body
  end.

(** Stylized "S" *)
Definition stereoChar1 : list Z :=
  [0x0F; 0x18; 0x1B; 0x1D; 0x1E; 0x18; 0x0F; 0x00].

(** Stylized "T" *)
Definition stereoChar2 : list Z :=
  [0x1E; 0x03; 0x17; 0x17; 0x17; 0x17; 0x1E; 0x00].

(** Dial scale background *)
Definition scaleChar : list Z :=
  [0x00; 0x00; 0x00; 0x00; 0x00; 0x04; 0x15; 0x15].

(** [needleChar[i] = scaleChar[i] | (0b10000 >> j)] *)
Definition needleChar (j : Z) : list Z :=
  map (fun row => to_byte (Z.lor row (Z.shiftr 0x10 j))) scaleChar.

Definition setup : M unit :=
  emit (LcdCreateChar STEREO_CHAR_S stereoChar1) ;;
  emit (LcdCreateChar STEREO_CHAR_T stereoChar2) ;;
  emit (LcdCreateChar SCALE_CLEAR scaleChar) ;;
  for_each [0; 1; 2; 3; 4] (fun j => emit (LcdCreateChar j (needleChar j))) ;;
  emit (LcdBegin 16 2) ;;
  emit LcdClear ;;
  for_each (map Z.of_nat (seq 0 16)) (fun _ => lcd_write SCALE_CLEAR) ;;
  emit (PinMode ENCODER_SW) ;; emit (DigitalWrite ENCODER_SW 1) ;;
  emit (PinMode ENCODER_A) ;; emit (DigitalWrite ENCODER_A 1) ;;
  emit (PinMode ENCODER_B) ;; emit (DigitalWrite ENCODER_B 1) ;;
  emit (AttachInterrupt 2) ;;
  emit (AttachInterrupt 3) ;;
  emit WireBegin ;;
  emit RadioInit ;;
  f <- get_frequency ;;
  emit (RadioSetFrequency f).

(** ** loop *)

(** What the five status bytes read from the tuner decode to:
    [Radio.frequency_available(buf)] in Hz, [Radio.stereo(buf)] and
    [Radio.signal_level(buf)]. *)
Record snapshot : Type := Snapshot {
  frequency_available : Q;
  stereo : Z;
  signal_level : Z
}.

(** What the tuner library answers during one pass of [loop]: the return
    value of [Radio.read_status(buf)], the buffer it filled, and the
    return value of [Radio.process_search(buf, searchDirection)]. *)
Record loop_env : Type := LoopEnv {
  read_status : Z;
  buf : snapshot;
  process_search : Z
}.

(** Lines 230-232: the Auto / Manual indicator. *)
Definition show_mode : M unit :=
  lcd_setCursor 12 1 ;;
  s <- get_status ;;
  lcd_write (if truthy (bitRead s ST_AUTO) then chr "A" else chr "M").

(** [floor(Radio.frequency_available(buf) / 100000 + .5) / 10]: Hz to MHz,
    to the nearest tenth. *)
Definition nearest_tenth (hz : Q) : Q := floor (hz / 100000 + 0.5) / 10.

(** [(Radio.signal_level(buf) * 100) / 15], in [int]. *)
Definition percent (level : Z) : Z := Z.quot (level * 100) 15.

(** Lines 234-263: the body of [if (Radio.read_status(buf) == 1)]. *)
Definition show_reading (b : snapshot) : M unit :=
  put_frequency (nearest_tenth (frequency_available b)) ;;
  let stereo := stereo b in
  let signalLevel := percent (signal_level b) in
  updateScale ;;
  lcd_setCursor 0 1 ;;
  lcd_write 183 ;;
  when (signalLevel <? 100) (lcd_write (chr " ")) ;;
  emit (LcdPrintInt signalLevel) ;;
  lcd_write (chr "%") ;;
  lcd_setCursor 6 1 ;;
  f <- get_frequency ;;
  when (Qltb f 100) (lcd_write (chr " ")) ;;
  f <- get_frequency ;;
  emit (LcdPrintFloat f 1) ;;
  lcd_setCursor 14 1 ;;
  if truthy stereo then
    lcd_write STEREO_CHAR_S ;;
    lcd_write STEREO_CHAR_T
  else
    emit (LcdPrintStr "  ").

(** Lines 230-263: the display refresh. *)
Definition refresh (env : loop_env) : M unit :=
  show_mode ;;
  emit RadioReadStatus ;;
  when (read_status env =? 1) (show_reading (buf env)).

(** Lines 265-269.  [searchDirection] is a local of [loop] that nothing has
    assigned yet at this point: the library is handed [None]. *)
Definition poll_search (env : loop_env) (searchDirection : option search_dir)
  : M unit :=
  s <- get_status ;;
  when (truthy (bitRead s ST_SEARCH))
    (emit (RadioProcessSearch searchDirection) ;;
     when (process_search env =? 1)
       (s <- get_status ;; put_status (bitWrite s ST_SEARCH 0))).

(** Lines 271-287: encoder being turned clockwise.  [frequency += 0.1] is
    the exact sum here; [Loop32.go_up32] has the rounded one. *)
Definition go_up (searchDirection : option search_dir)
  : M (option search_dir) :=
  s <- get_status ;;
  if truthy (bitRead s ST_GO_UP) then
    dir <- (s <- get_status ;;
            if truthy (bitRead s ST_AUTO) && negb (truthy (bitRead s ST_SEARCH))
            then
              put_status (bitWrite s ST_SEARCH 1) ;;
              emit RadioSearchUp ;;
              emit (Delay 50) ;;
              ret (Some TEA5767_SEARCH_DIR_UP)
            else
              f <- get_frequency ;;
              when (Qltb f 108)
                (put_frequency (f + 0.1) ;;
                 f <- get_frequency ;;
                 emit (RadioSetFrequency f)) ;;
              ret searchDirection) ;;
    s <- get_status ;;
    put_status (bitWrite s ST_GO_UP 0) ;;
    ret dir
  else ret searchDirection.

(** Lines 289-305: encoder being turned counterclockwise.
    [frequency -= 0.1] is the exact difference here; [Loop32.go_down32] has
    the rounded one. *)
Definition go_down (searchDirection : option search_dir)
  : M (option search_dir) :=
  s <- get_status ;;
  if truthy (bitRead s ST_GO_DOWN) then
    dir <- (s <- get_status ;;
            if truthy (bitRead s ST_AUTO) && negb (truthy (bitRead s ST_SEARCH))
            then
              put_status (bitWrite s ST_SEARCH 1) ;;
              emit RadioSearchDown ;;
              emit (Delay 50) ;;
              ret (Some TEA5767_SEARCH_DIR_DOWN)
            else
              f <- get_frequency ;;
              when (Qltb 88 f)
                (put_frequency (f - 0.1) ;;
                 f <- get_frequency ;;
                 emit (RadioSetFrequency f)) ;;
              ret searchDirection) ;;
    s <- get_status ;;
    put_status (bitWrite s ST_GO_DOWN 0) ;;
    ret dir
  else ret searchDirection.

(** One pass of [loop]; the result is the value the local
    [searchDirection] holds when the function returns. *)
Definition loop (env : loop_env) : M (option search_dir) :=
  refresh env ;;
  poll_search env None ;;
  dir <- go_up None ;;
  go_down dir.

(** ** Interleaving

    The two handlers are attached to rising edges and run when an edge
    arrives.  Here they run between two passes of [loop]; a handler that
    interrupts a pass half way is outside this model. *)

Inductive event : Type :=
| Encoder (pinB : bool)
| Switch
| Loop (env : loop_env).

Definition step (e : event) : M unit :=
  match e with
  | Encoder pinB => isrEncoder pinB
  | Switch => isrSwitch
  | Loop env => loop env ;; ret tt
  end.

Definition run (es : list event) : M unit := for_each es step.

(** The sketch from power-on: [setup], then the events. *)
Definition sketch (es : list event) : unit * machine * list effect :=
  (setup ;; run es) power_on.

(** A reachable state is the state after [setup] and any sequence of handler
    invocations and passes of [loop]. *)
Definition reachable (m : machine) : Prop :=
  exists es, final (sketch es) = m.

(** ** The character display

    The LiquidCrystal library drives a 16x2 character module: a cursor and
    a grid of cells, each holding a glyph code.  A write stores the glyph at
    the cursor and moves the cursor one column to the right; columns 0..15
    of rows 0 and 1 are the visible ones.  [print] of an [int] writes its
    decimal digits; [print] of a [float] with [digits] decimals follows
    [Print::printFloat] of the Arduino core. *)

Module Lcd.

Record display : Type := Display {
  col : Z;
  row : Z;
  cell : Z -> Z -> Z
}.

Definition blank : display :=
  {| col := 0; row := 0; cell := fun _ _ => chr " " |}.

Definition put (d : display) (glyph : Z) : display :=
  {| col := col d + 1;
     row := row d;
     cell := fun c r =>
               if (c =? col d) && (r =? row d) then glyph else cell d c r |}.

Definition puts (d : display) (glyphs : list Z) : display :=
  fold_left put glyphs d.

Definition codes (s : string) : list Z := map chr (list_ascii_of_string s).

Definition decimal (n : Z) : list Z :=
  codes (NilZero.string_of_int (Z.to_int n)).

(** [remainder *= 10.0; toPrint = (unsigned int) remainder;
     print(toPrint); remainder -= toPrint;] *)
Fixpoint fraction (digits : nat) (remainder : Q) : list Z :=
  match digits with
  | O => []
  | S digits' =>
      let remainder := (remainder * 10)%Q in
      let toPrint := float_to_int remainder in
      decimal toPrint ++ fraction digits' (remainder - inject_Z toPrint)%Q
  end.

Definition printFloat (number : Q) (digits : nat) : list Z :=
  let negative := Qltb number 0 in
  let number := if negative then (- number)%Q else number in
  let rounding := (0.5 / inject_Z (10 ^ Z.of_nat digits))%Q in
  let number := (number + rounding)%Q in
  let int_part := float_to_int number in
  let remainder := (number - inject_Z int_part)%Q in
  (if negative then [chr "-"] else [])
    ++ decimal int_part
    ++ (if (0 <? Z.of_nat digits) then [chr "."] else [])
    ++ fraction digits remainder.

Definition apply (d : display) (e : effect) : display :=
  match e with
  | LcdBegin _ _ | LcdClear => blank
  | LcdSetCursor c r => {| col := c; row := r; cell := cell d |}
  | LcdWrite glyph => put d glyph
  | LcdPrintInt n => puts d (decimal n)
  | LcdPrintFloat x digits => puts d (printFloat x (Z.to_nat digits))
  | LcdPrintStr s => puts d (codes s)
  | _ => d
  end.

Definition render (t : list effect) (d : display) : display :=
  fold_left apply t d.

(** The visible part of a row, left to right. *)
Definition line (d : display) (r : Z) : list Z :=
  map (fun c => cell d (Z.of_nat c) r) (seq 0 16).

(** Glyphs 0..4 are the five needle positions. *)
Definition is_needle (glyph : Z) : bool := (0 <=? glyph) && (glyph <=? 4).

(** How many needle glyphs the dial scale (the top row) shows. *)
Definition needles (d : display) : nat :=
  List.length (filter is_needle (line d 0)).

End Lcd.

(** ** Reading a trace *)

(** The frequencies handed to [Radio.set_frequency], in order. *)
Fixpoint retunes (t : list effect) : list Q :=
  match t with
  | [] => []
  | RadioSetFrequency f :: t' => f :: retunes t'
  | _ :: t' => retunes t'
  end.

(** The numbers handed to [lcd.print(int)], in order. *)
Fixpoint printed_ints (t : list effect) : list Z :=
  match t with
  | [] => []
  | LcdPrintInt n :: t' => n :: printed_ints t'
  | _ :: t' => printed_ints t'
  end.

Definition is_lcd (e : effect) : bool :=
  match e with
  | LcdCreateChar _ _ | LcdBegin _ _ | LcdClear | LcdSetCursor _ _
  | LcdWrite _ | LcdPrintInt _ | LcdPrintFloat _ _ | LcdPrintStr _ => true
  | _ => false
  end.

(** The calls on the display, in order. *)
Definition lcd_calls (t : list effect) : list effect := filter is_lcd t.

Definition is_radio_command (e : effect) : bool :=
  match e with
  | RadioSetFrequency _ | RadioSearchUp | RadioSearchDown => true
  | _ => false
  end.

(** The commands that retune the tuner or start a search, in order. *)
Definition radio_commands (t : list effect) : list effect :=
  filter is_radio_command t.

(** Only [updateScale] places the cursor on the top row, and it does so
    once per run: the number of needle drawings in a trace. *)
Definition is_scale_cursor (e : effect) : bool :=
  match e with
  | LcdSetCursor _ r => r =? 0
  | _ => false
  end.

Definition needle_draws (t : list effect) : nat :=
  List.length (filter is_scale_cursor t).

(** ** The flags of the status register *)

Definition flag (m : machine) (bit : Z) : bool :=
  truthy (bitRead (status m) bit).

(** ** The scale mapping as the specification words it *)

Definition Qclamp (x lo hi : Q) : Q :=
  if Qltb x lo then lo else if Qltb hi x then hi else x.

(** position = clamp((frequency - 88.0) * 4, 0, 79), truncated. *)
Definition spec_position (f : Q) : Z :=
  float_to_int (Qclamp ((f - 88) * 4) 0 79).

(** ** A tuner that answers with what it was told

    In a pass of [loop] the tuner is [quiet] when it has no status to
    report, and it [reports] [k] when the frequency it reads out rounds to
    [k] tenths of a MHz. *)

Definition quiet (env : loop_env) : Prop := read_status env <> 1.

Definition reports (env : loop_env) (k : Z) : Prop :=
  read_status env = 1 /\
  Qfloor (frequency_available (buf env) / 100000 + 0.5) = k.

(** The calls one run of [updateScale] makes at frequency [f]. *)
Definition scale_calls (f : Q) : list effect :=
  (if 0 <? lcdMajor f
   then [LcdSetCursor (to_byte (lcdMajor f - 1)) 0; LcdWrite SCALE_CLEAR]
   else [LcdSetCursor (to_byte (lcdMajor f)) 0])
  ++ [LcdWrite (to_byte (lcdMinor f))]
  ++ (if lcdMajor f <? 15 then [LcdWrite SCALE_CLEAR] else []).

(** The calls that show a reading whose frequency is [f]. *)
Definition reading_calls (f : Q) (b : snapshot) : list effect :=
  scale_calls f
  ++ [LcdSetCursor 0 1; LcdWrite 183]
  ++ (if percent (signal_level b) <? 100 then [LcdWrite (chr " ")] else [])
  ++ [LcdPrintInt (percent (signal_level b)); LcdWrite (chr "%");
      LcdSetCursor 6 1]
  ++ (if Qltb f 100 then [LcdWrite (chr " ")] else [])
  ++ [LcdPrintFloat f 1; LcdSetCursor 14 1]
  ++ (if truthy (stereo b)
      then [LcdWrite STEREO_CHAR_S; LcdWrite STEREO_CHAR_T]
      else [LcdPrintStr "  "]).

(** ** Single precision

    On the AVR target of the sketch [float] and [double] are both IEEE
    binary32.  The frequency arithmetic of [loop] in that format, for the
    concrete steps the properties below are about. *)

Module Binary32.

Definition prec : Z := 24.
Definition emax : Z := 128.

Definition of_int (z : Z) : spec_float := binary_normalize prec emax z 0 false.
Definition add : spec_float -> spec_float -> spec_float := SFadd prec emax.
Definition sub : spec_float -> spec_float -> spec_float := SFsub prec emax.
Definition div : spec_float -> spec_float -> spec_float := SFdiv prec emax.

(** The literal [0.1]. *)
Definition tenth : spec_float := div (of_int 1) (of_int 10).

(** [floor(...) / 10] when the floor is the whole number [k]. *)
Definition of_tenths (k : Z) : spec_float := div (of_int k) (of_int 10).

(** [if(frequency < 108) frequency += 0.1;] *)
Definition step_up (f : spec_float) : spec_float :=
  if SFltb f (of_int 108) then add f tenth else f.

(** [if(frequency > 88) frequency -= 0.1;] *)
Definition step_down (f : spec_float) : spec_float :=
  if SFltb (of_int 88) f then sub f tenth else f.

(** The rational a finite float stands for. *)
Definition to_Q (x : spec_float) : Q :=
  match x with
  | S754_finite s m e =>
      let v := if s then Z.neg m else Z.pos m in
      if 0 <=? e then inject_Z (v * 2 ^ e) else Qmake v (2 ^ Z.to_pos (- e))
  | _ => 0%Q
  end.

Definition in_band (f : spec_float) : bool :=
  SFleb (of_int 88) f && SFleb f (of_int 108).

(** The tenths of a MHz of the dial, 880 to 1080. *)
Definition dial : list Z := map (fun n => 880 + Z.of_nat n) (seq 0 201).

End Binary32.

(** ** Vocabulary of the statements *)

(** A stretch of trace that does not touch the display. *)
Definition off_display (t : list effect) : Prop :=
  Forall (fun e => is_lcd e = false) t.

(** The branch of goUp/goDown processing that is not the search branch is
    taken when autoMode is off or a search is running. *)
Definition manual_branch (m : machine) : Prop :=
  flag m ST_AUTO && negb (flag m ST_SEARCH) = false.

(** On the dial: a whole number of tenths of a MHz from 88.0 to 108.0. *)
Definition on_dial (f : Q) : Prop :=
  exists k : Z, 880 <= k <= 1080 /\ (f == inject_Z k / 10)%Q.

(** A pass of [loop] whose reading, if there is one, is within 87.95 MHz
    (included) and 108.05 MHz (excluded); the handlers are unconstrained. *)
Definition reading_in_band (e : event) : Prop :=
  match e with
  | Loop env =>
      read_status env = 1 ->
      (87950000 <= frequency_available (buf env) < 108050000)%Q
  | _ => True
  end.

(** A pass in which the tuner has nothing to report and no search ends. *)
Definition no_status : loop_env :=
  {| read_status := 0;
     buf := {| frequency_available := 0; stereo := 0; signal_level := 0 |};
     process_search := 0 |}.

(** A pass in which the tuner reports [hz], mono, at signal level 9, and
    any search as complete. *)
Definition tuned (hz : Q) : loop_env :=
  {| read_status := 1;
     buf := {| frequency_available := hz; stereo := 0; signal_level := 9 |};
     process_search := 1 |}.

(** The display after [setup] and the events [es], from a blank module. *)
Definition screen (es : list event) : Lcd.display :=
  Lcd.render (trace (sketch es)) Lcd.blank.

(** One goUp event and the pass of [loop] that consumes it. *)
Definition tuning_pass (env : loop_env) : list event :=
  [Encoder true; Loop env].

(** The frequency the display refresh leaves behind. *)
Definition refreshed (env : loop_env) (f : Q) : Q :=
  if read_status env =? 1
  then nearest_tenth (frequency_available (buf env))
  else f.

(** The tuner tracks the sketch from [k] tenths of a MHz on: in each pass
    it is quiet or reports the frequency the sketch holds. *)
Fixpoint tracking (k : Z) (envs : list loop_env) : Prop :=
  match envs with
  | [] => True
  | env :: envs' => (quiet env \/ reports env k) /\ tracking (k + 1) envs'
  end.

(** The passes in which the tuner has a reading. *)
Definition readings (envs : list loop_env) : nat :=
  List.length (filter (fun env => read_status env =? 1) envs).

(** The frequencies [k+1], [k+2], ... tenths, one per pass. *)
Fixpoint tenths_from (k : Z) (n : nat) : list Q :=
  match n with
  | O => []
  | S n' => (inject_Z (k + 1) / 10)%Q :: tenths_from (k + 1) n'
  end.

(** The tuner reporting what it was last told, to the PLL step:
    88.002840, 88.101144, 88.199448, 88.297752, 88.396056 and
    88.502552 MHz. *)
Definition echo : list loop_env :=
  map tuned [88002840; 88101144; 88199448; 88297752; 88396056; 88502552]%Q.

(** ** Further vocabulary *)

(** How often the switch was pressed in a run. *)
Fixpoint switches (es : list event) : nat :=
  match es with
  | [] => O
  | Switch :: es' => S (switches es')
  | _ :: es' => switches es'
  end.

(** A pass of [loop] in which the tuner does not report a search as
    complete; the handlers are unconstrained. *)
Definition search_goes_on (e : event) : Prop :=
  match e with
  | Loop env => process_search env <> 1
  | _ => True
  end.

(** The scale position of [updateScale] in single precision:
    [(frequency - 88) * 4] in binary32, then the conversion to [int] and
    the clamp at 79. *)
Module Binary32Scale.

Definition mul : spec_float -> spec_float -> spec_float :=
  SFmul Binary32.prec Binary32.emax.

Definition lcdBase (f : spec_float) : Z :=
  let b := float_to_int
             (Binary32.to_Q
                (mul (Binary32.sub f (Binary32.of_int 88)) (Binary32.of_int 4))) in
  if 79 <? b then 79 else b.

End Binary32Scale.

(** ** The frequency path of the sketch in single precision

    The globals and the state changes of the handlers and of [loop] once
    more, with [frequency] an IEEE binary32 number: the adoption of the
    tuner's frequency (line 236) and the two guarded steps (lines 281-282
    and 299-300) round as the AVR target rounds them.  The status byte is
    handled as above; the display and the tuner commands, which store
    nothing, are left out. *)

Module Loop32.

Record machine32 : Type := Machine32 {
  frequency32 : spec_float;
  status32 : Z
}.

(** [float frequency = 88; byte status = 0;] *)
Definition power_on32 : machine32 :=
  {| frequency32 := Binary32.of_int 88; status32 := 0 |}.

(** The literal [.5]. *)
Definition half : spec_float :=
  Binary32.div (Binary32.of_int 1) (Binary32.of_int 2).

(** [floor] of a finite float. *)
Definition floor32 (x : spec_float) : spec_float :=
  Binary32.of_int (Qfloor (Binary32.to_Q x)).

(** [Radio.frequency_available(buf) / 100000 + .5] *)
Definition scaled32 (hz : spec_float) : spec_float :=
  Binary32.add (Binary32.div hz (Binary32.of_int 100000)) half.

(** [floor(Radio.frequency_available(buf) / 100000 + .5) / 10] *)
Definition nearest_tenth32 (hz : spec_float) : spec_float :=
  Binary32.div (floor32 (scaled32 hz)) (Binary32.of_int 10).

(** What the tuner library answers during one pass, the frequency being the
    float it returns. *)
Record loop_env32 : Type := LoopEnv32 {
  read_status32 : Z;
  frequency_available32 : spec_float;
  process_search32 : Z
}.

Definition isrEncoder32 (pinB : bool) (m : machine32) : machine32 :=
  {| frequency32 := frequency32 m;
     status32 := if pinB then bitWrite (status32 m) ST_GO_UP 1
                 else bitWrite (status32 m) ST_GO_DOWN 1 |}.

Definition isrSwitch32 (m : machine32) : machine32 :=
  {| frequency32 := frequency32 m;
     status32 := if truthy (bitRead (status32 m) ST_AUTO)
                 then bitWrite (status32 m) ST_AUTO 0
                 else bitWrite (status32 m) ST_AUTO 1 |}.

(** Lines 234-236. *)
Definition refresh32 (env : loop_env32) (m : machine32) : machine32 :=
  if read_status32 env =? 1
  then {| frequency32 := nearest_tenth32 (frequency_available32 env);
          status32 := status32 m |}
  else m.

(** Lines 265-269. *)
Definition poll_search32 (env : loop_env32) (m : machine32) : machine32 :=
  if truthy (bitRead (status32 m) ST_SEARCH) then
    if process_search32 env =? 1
    then {| frequency32 := frequency32 m;
            status32 := bitWrite (status32 m) ST_SEARCH 0 |}
    else m
  else m.

(** Lines 271-287. *)
Definition go_up32 (m : machine32) : machine32 :=
  if truthy (bitRead (status32 m) ST_GO_UP) then
    let m' :=
      if truthy (bitRead (status32 m) ST_AUTO)
         && negb (truthy (bitRead (status32 m) ST_SEARCH))
      then {| frequency32 := frequency32 m;
              status32 := bitWrite (status32 m) ST_SEARCH 1 |}
      else {| frequency32 := Binary32.step_up (frequency32 m);
              status32 := status32 m |} in
    {| frequency32 := frequency32 m';
       status32 := bitWrite (status32 m') ST_GO_UP 0 |}
  else m.

(** Lines 289-305. *)
Definition go_down32 (m : machine32) : machine32 :=
  if truthy (bitRead (status32 m) ST_GO_DOWN) then
    let m' :=
      if truthy (bitRead (status32 m) ST_AUTO)
         && negb (truthy (bitRead (status32 m) ST_SEARCH))
      then {| frequency32 := frequency32 m;
              status32 := bitWrite (status32 m) ST_SEARCH 1 |}
      else {| frequency32 := Binary32.step_down (frequency32 m);
              status32 := status32 m |} in
    {| frequency32 := frequency32 m';
       status32 := bitWrite (status32 m') ST_GO_DOWN 0 |}
  else m.

Definition loop32 (env : loop_env32) (m : machine32) : machine32 :=
  go_down32 (go_up32 (poll_search32 env (refresh32 env m))).

Inductive event32 : Type :=
| Encoder32 (pinB : bool)
| Switch32
| Loop32 (env : loop_env32).

Definition step32 (m : machine32) (e : event32) : machine32 :=
  match e with
  | Encoder32 pinB => isrEncoder32 pinB m
  | Switch32 => isrSwitch32 m
  | Loop32 env => loop32 env m
  end.

(** The state after the events, in order; [setup] stores nothing. *)
Definition run32 (es : list event32) (m : machine32) : machine32 :=
  fold_left step32 es m.

(** The whole number of tenths of a MHz a reported frequency rounds to. *)
Definition tenths32 (hz : spec_float) : Z :=
  Qfloor (Binary32.to_Q (scaled32 hz)).

(** A pass of [loop] that adopts a status snapshot whose frequency rounds to
    a tenth of a MHz from 88.0 to 108.0; the handlers are unconstrained. *)
Definition adopts_in_band (e : event32) : Prop :=
  match e with
  | Loop32 env =>
      read_status32 env = 1 /\
      880 <= tenths32 (frequency_available32 env) <= 1080
  | _ => True
  end.

End Loop32.

(** ** The range of the 16-bit int

    [lcdBase] is an [int] of 16 bits on the target.  The conversion of
    [(frequency - 88) * 4] stays inside it for the frequencies above
    -8104 MHz and below 8280 MHz; outside of them C leaves the conversion
    undefined, and [lcdBase] above does not describe it. *)

Definition in_int_range (f : Q) : Prop := (-8104 < f < 8280)%Q.

(** A display call that keeps the cursor in the bottom row, if it was
    there: everything but a cursor move to another row and a clear. *)
Definition keeps_bottom_row (e : effect) : bool :=
  match e with
  | LcdSetCursor _ r => r =? 1
  | LcdBegin _ _ | LcdClear => false
  | _ => true
  end.

(** The display [d] after the first [j] tuning passes of [envs], run from
    the machine [m]. *)
Definition dial_after (j : nat) (envs : list loop_env) (m : machine)
    (d : Lcd.display) : Lcd.display :=
  Lcd.render (trace (run (flat_map tuning_pass (firstn j envs)) m)) d.

(** One goUp event and the pass of [loop] that consumes it, in single
    precision. *)
Definition tuning_pass32 (env : Loop32.loop_env32) : list Loop32.event32 :=
  [Loop32.Encoder32 true; Loop32.Loop32 env].

(** [tracking] in single precision: in each pass the tuner is quiet or
    reports a frequency that rounds to the tenth of a MHz the sketch
    holds, from [k] tenths on. *)
Fixpoint tracking32 (k : Z) (envs : list Loop32.loop_env32) : Prop :=
  match envs with
  | [] => True
  | env :: envs' =>
      (Loop32.read_status32 env <> 1 \/
       (Loop32.read_status32 env = 1 /\
        Loop32.tenths32 (Loop32.frequency_available32 env) = k)) /\
      tracking32 (k + 1) envs'
  end.

(** The float in [frequency] after the first [j] tuning passes of [envs],
    run from the machine [m]: after the [j]-th pass it is the argument of
    that pass's [Radio.set_frequency(frequency)]. *)
Definition after32 (j : nat) (envs : list Loop32.loop_env32)
    (m : Loop32.machine32) : spec_float :=
  Loop32.frequency32
    (Loop32.run32 (flat_map tuning_pass32 (firstn j envs)) m).

(** [echo] with the frequencies as the floats the library returns. *)
Definition echo32 : list Loop32.loop_env32 :=
  map (fun hz => {| Loop32.read_status32 := 1;
                    Loop32.frequency_available32 := Binary32.of_int hz;
                    Loop32.process_search32 := 1 |})
    [88002840; 88101144; 88199448; 88297752; 88396056; 88502552].

(** * Properties *)

(** Linear arithmetic over [Q] after the two constant divisors of the
    sketch are turned into factors. *)
Ltac qlra :=
  unfold Qdiv in *;
  change (/ 10)%Q with (1 # 10)%Q in *;
  change (/ 100000)%Q with (1 # 100000)%Q in *;
  lra.

(** ** Bits of the status byte *)

Section Bits.

Lemma truthy_bitRead (v bit : Z) :
  0 <= bit -> truthy (bitRead v bit) = Z.testbit v bit.
Proof.
  intros Hbit. unfold truthy, bitRead.
  change 1 with (Z.ones 1). rewrite Z.land_ones by lia.
  change (2 ^ 1) with 2. rewrite Zmod_odd.
  rewrite <- Z.bit0_odd, Z.shiftr_spec by lia. simpl (0 + bit).
  destruct (Z.testbit v bit); reflexivity.
Qed.

Lemma testbit_to_byte (x i : Z) :
  Z.testbit (to_byte x) i = (i <? 8) && Z.testbit x i.
Proof.
  unfold to_byte. change 256 with (2 ^ 8).
  apply Z.testbit_mod_pow2. lia.
Qed.

Lemma testbit_bitSet (v bit i : Z) :
  0 <= bit -> 0 <= i ->
  Z.testbit (bitSet v bit) i = (i <? 8) && (Z.testbit v i || (bit =? i)).
Proof.
  intros Hbit Hi. unfold bitSet.
  rewrite testbit_to_byte, Z.lor_spec, Z.shiftl_1_l, Z.pow2_bits_eqb by lia.
  reflexivity.
Qed.

Lemma testbit_bitClear (v bit i : Z) :
  0 <= bit -> 0 <= i ->
  Z.testbit (bitClear v bit) i
  = (i <? 8) && (Z.testbit v i && negb (bit =? i)).
Proof.
  intros Hbit Hi. unfold bitClear.
  rewrite testbit_to_byte, Z.land_spec, Z.lnot_spec, Z.shiftl_1_l,
    Z.pow2_bits_eqb by lia.
  reflexivity.
Qed.

(** Writing a bit of a byte: that bit takes the value, the other seven
    keep theirs. *)
Lemma testbit_bitWrite (v bit bitvalue i : Z) :
  0 <= bit < 8 -> 0 <= i < 8 ->
  Z.testbit (bitWrite v bit bitvalue) i
  = if i =? bit then truthy bitvalue else Z.testbit v i.
Proof.
  intros Hbit Hi. unfold bitWrite, truthy. rewrite (Z.eqb_sym i bit).
  assert (Hlt : (i <? 8) = true) by (apply Z.ltb_lt; lia).
  destruct (bitvalue =? 0); simpl negb.
  - rewrite testbit_bitClear, Hlt by lia.
    destruct (bit =? i), (Z.testbit v i); reflexivity.
  - rewrite testbit_bitSet, Hlt by lia.
    destruct (bit =? i), (Z.testbit v i); reflexivity.
Qed.

Lemma flag_testbit (m : machine) (bit : Z) :
  0 <= bit -> flag m bit = Z.testbit (status m) bit.
Proof. intros; unfold flag; now apply truthy_bitRead. Qed.

End Bits.

(** ** The blocks of [loop] as equations *)

Ltac run_sketch :=
  cbv beta iota delta
    [bind ret emit when get_frequency put_frequency get_status put_status
     lcd_setCursor lcd_write frequency status flag result final trace
     fst snd app].

Lemma isrEncoder_eq (pinB : bool) (m : machine) :
  isrEncoder pinB m
  = (tt,
     {| frequency := frequency m;
        status := bitWrite (status m) (if pinB then ST_GO_UP else ST_GO_DOWN) 1 |},
     [Delay 50]).
Proof. destruct m as [f s], pinB; reflexivity. Qed.

Lemma isrSwitch_eq (m : machine) :
  isrSwitch m
  = (tt,
     {| frequency := frequency m;
        status := bitWrite (status m) ST_AUTO
                    (if flag m ST_AUTO then 0 else 1) |},
     [Delay 50]).
Proof.
  destruct m as [f s]. unfold isrSwitch. run_sketch.
  destruct (truthy (bitRead s ST_AUTO)); reflexivity.
Qed.

Lemma show_mode_eq (m : machine) :
  show_mode m
  = (tt, m,
     [LcdSetCursor 12 1;
      LcdWrite (if flag m ST_AUTO then chr "A" else chr "M")]).
Proof.
  destruct m as [f s]. unfold show_mode. run_sketch.
  destruct (truthy (bitRead s ST_AUTO)); reflexivity.
Qed.

Lemma poll_search_eq (env : loop_env) (dir : option search_dir) (m : machine) :
  poll_search env dir m
  = if flag m ST_SEARCH then
      if process_search env =? 1 then
        (tt,
         {| frequency := frequency m;
            status := bitWrite (status m) ST_SEARCH 0 |},
         [RadioProcessSearch dir])
      else (tt, m, [RadioProcessSearch dir])
    else (tt, m, []).
Proof.
  destruct m as [f s]. unfold poll_search. run_sketch.
  destruct (truthy (bitRead s ST_SEARCH)); [|reflexivity].
  destruct (process_search env =? 1); reflexivity.
Qed.

Lemma go_up_eq (dir : option search_dir) (m : machine) :
  go_up dir m
  = if flag m ST_GO_UP then
      if flag m ST_AUTO && negb (flag m ST_SEARCH) then
        (Some TEA5767_SEARCH_DIR_UP,
         {| frequency := frequency m;
            status := bitWrite (bitWrite (status m) ST_SEARCH 1) ST_GO_UP 0 |},
         [RadioSearchUp; Delay 50])
      else if Qltb (frequency m) 108 then
        (dir,
         {| frequency := frequency m + 0.1;
            status := bitWrite (status m) ST_GO_UP 0 |},
         [RadioSetFrequency (frequency m + 0.1)])
      else
        (dir,
         {| frequency := frequency m;
            status := bitWrite (status m) ST_GO_UP 0 |},
         [])
    else (dir, m, []).
Proof.
  destruct m as [f s]. unfold go_up. run_sketch.
  destruct (truthy (bitRead s ST_GO_UP)); [|reflexivity].
  destruct (truthy (bitRead s ST_AUTO) && negb (truthy (bitRead s ST_SEARCH)));
    [reflexivity|].
  destruct (Qltb f 108); reflexivity.
Qed.

Lemma go_down_eq (dir : option search_dir) (m : machine) :
  go_down dir m
  = if flag m ST_GO_DOWN then
      if flag m ST_AUTO && negb (flag m ST_SEARCH) then
        (Some TEA5767_SEARCH_DIR_DOWN,
         {| frequency := frequency m;
            status := bitWrite (bitWrite (status m) ST_SEARCH 1) ST_GO_DOWN 0 |},
         [RadioSearchDown; Delay 50])
      else if Qltb 88 (frequency m) then
        (dir,
         {| frequency := frequency m - 0.1;
            status := bitWrite (status m) ST_GO_DOWN 0 |},
         [RadioSetFrequency (frequency m - 0.1)])
      else
        (dir,
         {| frequency := frequency m;
            status := bitWrite (status m) ST_GO_DOWN 0 |},
         [])
    else (dir, m, []).
Proof.
  destruct m as [f s]. unfold go_down. run_sketch.
  destruct (truthy (bitRead s ST_GO_DOWN)); [|reflexivity].
  destruct (truthy (bitRead s ST_AUTO) && negb (truthy (bitRead s ST_SEARCH)));
    [reflexivity|].
  destruct (Qltb 88 f); reflexivity.
Qed.

Lemma updateScale_eq (m : machine) :
  updateScale m = (tt, m, scale_calls (frequency m)).
Proof.
  destruct m as [f s]. unfold updateScale, scale_calls. run_sketch.
  destruct (0 <? lcdMajor f), (lcdMajor f <? 15); reflexivity.
Qed.

Lemma show_reading_eq (b : snapshot) (m : machine) :
  show_reading b m
  = (tt,
     {| frequency := nearest_tenth (frequency_available b);
        status := status m |},
     reading_calls (nearest_tenth (frequency_available b)) b).
Proof.
  destruct m as [f s]. unfold show_reading, reading_calls.
  unfold bind at 1. unfold put_frequency at 1.
  unfold bind at 1. rewrite updateScale_eq.
  generalize (nearest_tenth (frequency_available b)); intros f'.
  run_sketch.
  destruct (percent (signal_level b) <? 100), (Qltb f' 100),
    (truthy (stereo b)); reflexivity.
Qed.

Lemma refresh_eq (env : loop_env) (m : machine) :
  refresh env m
  = if read_status env =? 1 then
      (tt,
       {| frequency := nearest_tenth (frequency_available (buf env));
          status := status m |},
       [LcdSetCursor 12 1;
        LcdWrite (if flag m ST_AUTO then chr "A" else chr "M");
        RadioReadStatus]
       ++ reading_calls (nearest_tenth (frequency_available (buf env)))
            (buf env))
    else
      (tt, m,
       [LcdSetCursor 12 1;
        LcdWrite (if flag m ST_AUTO then chr "A" else chr "M");
        RadioReadStatus]).
Proof.
  unfold refresh. unfold bind at 1. rewrite show_mode_eq.
  unfold bind at 1, emit at 1, when.
  destruct (read_status env =? 1).
  - rewrite show_reading_eq. destruct m; reflexivity.
  - destruct m; reflexivity.
Qed.

(** [loop] is its four blocks in sequence. *)
Lemma loop_eq (env : loop_env) (m : machine) :
  loop env m
  = let '(_, m1, t1) := refresh env m in
    let '(_, m2, t2) := poll_search env None m1 in
    let '(d3, m3, t3) := go_up None m2 in
    let '(d4, m4, t4) := go_down d3 m3 in
    (d4, m4, t1 ++ t2 ++ t3 ++ t4).
Proof.
  unfold loop, bind.
  destruct (refresh env m) as [[[] m1] t1].
  destruct (poll_search env None m1) as [[[] m2] t2].
  destruct (go_up None m2) as [[d3 m3] t3].
  destruct (go_down d3 m3) as [[d4 m4] t4].
  reflexivity.
Qed.

(** ** Rationals standing for floats *)

Section Floats.

Local Open Scope Q_scope.

Lemma Qltb_lt (x y : Q) : Qltb x y = true <-> x < y.
Proof.
  unfold Qltb. rewrite negb_true_iff, <- not_true_iff_false, Qle_bool_iff.
  split; [apply Qnot_le_lt | apply Qlt_not_le].
Qed.

Lemma Qltb_ge (x y : Q) : Qltb x y = false <-> y <= x.
Proof.
  unfold Qltb. rewrite negb_false_iff. apply Qle_bool_iff.
Qed.

Lemma float_to_int_floor (x : Q) : 0 <= x -> float_to_int x = Qfloor x.
Proof.
  destruct x as [n d]. unfold Qle, float_to_int, Qfloor; simpl.
  intros Hn. apply Z.quot_div_nonneg; lia.
Qed.

Lemma Qfloor_lower (x : Q) (k : Z) : (k <= Qfloor x)%Z <-> inject_Z k <= x.
Proof.
  split; intros H.
  - apply Qle_trans with (inject_Z (Qfloor x)).
    + rewrite <- Zle_Qle. exact H.
    + apply Qfloor_le.
  - rewrite <- (Qfloor_Z k). now apply Qfloor_resp_le.
Qed.

Lemma Qfloor_upper (x : Q) (k : Z) : (Qfloor x < k)%Z <-> x < inject_Z k.
Proof.
  split; intros H.
  - apply Qlt_le_trans with (inject_Z (Qfloor x + 1)).
    + apply Qlt_floor.
    + rewrite <- Zle_Qle. lia.
  - apply Z.lt_nge. intros Hk. apply Qfloor_lower in Hk.
    exact (Qlt_not_le _ _ H Hk).
Qed.

End Floats.

(** ** The scale mapping *)

Section Scale.

Local Open Scope Q_scope.

Lemma scale_offset_nonneg (f : Q) : 88 <= f -> 0 <= (f - 88) * 4.
Proof.
  intros H. apply Qmult_le_0_compat; [|discriminate].
  unfold Qminus. rewrite <- Qle_minus_iff. exact H.
Qed.

Lemma lcdBase_range (f : Q) : 88 <= f -> (0 <= lcdBase f <= 79)%Z.
Proof.
  intros H. unfold lcdBase.
  rewrite float_to_int_floor by now apply scale_offset_nonneg.
  assert (0 <= Qfloor ((f - 88) * 4))%Z
    by (apply Qfloor_lower; now apply scale_offset_nonneg).
  destruct (Z.ltb_spec 79 (Qfloor ((f - 88) * 4))); lia.
Qed.

Lemma lcdBase_spec_position (f : Q) : 88 <= f -> lcdBase f = spec_position f.
Proof.
  intros H. pose proof (scale_offset_nonneg f H) as Hx.
  unfold lcdBase, spec_position, Qclamp.
  set (x := (f - 88) * 4) in *. clearbody x.
  assert (Hlo : Qltb x 0 = false) by now apply Qltb_ge.
  rewrite Hlo. rewrite float_to_int_floor by exact Hx.
  destruct (Qltb 79 x) eqn:Hhi.
  - apply Qltb_lt in Hhi.
    assert (79 <= Qfloor x)%Z by (apply Qfloor_lower; now apply Qlt_le_weak).
    change (float_to_int 79) with 79%Z.
    destruct (Z.ltb_spec 79 (Qfloor x)); lia.
  - apply Qltb_ge in Hhi. rewrite float_to_int_floor by exact Hx.
    assert (Qfloor x <= 79)%Z
      by (rewrite <- (Qfloor_Z 79); now apply Qfloor_resp_le).
    destruct (Z.ltb_spec 79 (Qfloor x)); lia.
Qed.

Lemma lcdMajor_range (f : Q) : 88 <= f -> (0 <= lcdMajor f <= 15)%Z.
Proof.
  intros H. pose proof (lcdBase_range f H). unfold lcdMajor.
  rewrite Z.quot_div_nonneg by lia.
  split; [apply Z.div_pos; lia|].
  enough (lcdBase f / 5 < 16)%Z by lia.
  apply Z.div_lt_upper_bound; lia.
Qed.

Lemma lcdMinor_range (f : Q) : 88 <= f -> (0 <= lcdMinor f <= 4)%Z.
Proof.
  intros H. pose proof (lcdBase_range f H). unfold lcdMinor.
  rewrite Z.rem_mod_nonneg by lia.
  pose proof (Z.mod_pos_bound (lcdBase f) 5). lia.
Qed.

(** C5.  For every frequency f in [88.0, 108.0] the scale mapping computes
    position = clamp((f - 88.0) * 4, 0, 79) truncated to an integer,
    majorIndex = position / 5, within 0..15, and minorIndex = position % 5,
    within 0..4; 88.0 maps to (0, 0) and 108.0 maps to (15, 4). *)
Theorem C5_scale_mapping (f : Q) :
  88 <= f <= 108 ->
  lcdBase f = spec_position f /\
  lcdMajor f = (spec_position f / 5)%Z /\
  lcdMinor f = (spec_position f mod 5)%Z /\
  (0 <= lcdMajor f <= 15)%Z /\
  (0 <= lcdMinor f <= 4)%Z /\
  (lcdMajor 88, lcdMinor 88) = (0, 0)%Z /\
  (lcdMajor 108, lcdMinor 108) = (15, 4)%Z.
Proof.
  intros [Hlo Hhi].
  pose proof (lcdBase_range f Hlo) as Hb.
  pose proof (lcdBase_spec_position f Hlo) as Hs.
  repeat split; try reflexivity.
  - exact Hs.
  - rewrite <- Hs. unfold lcdMajor. apply Z.quot_div_nonneg; lia.
  - rewrite <- Hs. unfold lcdMinor. apply Z.rem_mod_nonneg; lia.
  - now apply lcdMajor_range.
  - now apply lcdMajor_range.
  - now apply lcdMinor_range.
  - now apply lcdMinor_range.
Qed.

Lemma C5_scale_mapping_witness :
  88 <= 98.5 <= 108 /\
  lcdBase 98.5 = spec_position 98.5 /\
  lcdMajor 98.5 = (spec_position 98.5 / 5)%Z /\
  lcdMinor 98.5 = (spec_position 98.5 mod 5)%Z /\
  (0 <= lcdMajor 98.5 <= 15)%Z /\
  (0 <= lcdMinor 98.5 <= 4)%Z /\
  (lcdMajor 88, lcdMinor 88) = (0, 0)%Z /\
  (lcdMajor 108, lcdMinor 108) = (15, 4)%Z.
Proof.
  assert (H : 88 <= 98.5 <= 108) by (split; discriminate).
  split; [exact H | exact (C5_scale_mapping 98.5 H)].
Defined.

End Scale.

(** ** Traces *)

Section Traces.

Lemma retunes_app (t u : list effect) :
  retunes (t ++ u) = retunes t ++ retunes u.
Proof.
  induction t as [|e t IH]; [reflexivity|].
  destruct e; simpl; rewrite IH; reflexivity.
Qed.

Lemma printed_ints_app (t u : list effect) :
  printed_ints (t ++ u) = printed_ints t ++ printed_ints u.
Proof.
  induction t as [|e t IH]; [reflexivity|].
  destruct e; simpl; rewrite IH; reflexivity.
Qed.

Lemma lcd_calls_app (t u : list effect) :
  lcd_calls (t ++ u) = lcd_calls t ++ lcd_calls u.
Proof. apply filter_app. Qed.

Lemma needle_draws_app (t u : list effect) :
  needle_draws (t ++ u) = (needle_draws t + needle_draws u)%nat.
Proof. unfold needle_draws. rewrite filter_app. apply length_app. Qed.

Lemma off_display_lcd_calls (t : list effect) :
  off_display t -> lcd_calls t = [].
Proof.
  induction 1 as [|e t He _ IH]; [reflexivity|].
  unfold lcd_calls in *. simpl. rewrite He. exact IH.
Qed.

Lemma off_display_printed_ints (t : list effect) :
  off_display t -> printed_ints t = [].
Proof.
  induction 1 as [|e t He _ IH]; [reflexivity|].
  destruct e; try discriminate He; exact IH.
Qed.

Lemma off_display_needle_draws (t : list effect) :
  off_display t -> needle_draws t = 0%nat.
Proof.
  induction 1 as [|e t He _ IH]; [reflexivity|].
  destruct e; try discriminate He; exact IH.
Qed.

(** The display only sees the display calls of a trace. *)
Lemma render_lcd_calls (t : list effect) (d : Lcd.display) :
  Lcd.render t d = Lcd.render (lcd_calls t) d.
Proof.
  revert d. induction t as [|e t IH]; intros d; [reflexivity|].
  destruct e; simpl; apply IH.
Qed.

(** After the display refresh, a pass of [loop] only talks to the tuner
    and the clock. *)
Lemma loop_after_refresh (env : loop_env) (m : machine) :
  exists tail,
    trace (loop env m) = trace (refresh env m) ++ tail /\ off_display tail.
Proof.
  rewrite loop_eq. destruct (refresh env m) as [[[] m1] t1].
  rewrite poll_search_eq.
  destruct (flag m1 ST_SEARCH); [destruct (process_search env =? 1)|];
    rewrite go_up_eq;
    (destruct (flag _ ST_GO_UP);
     [destruct (flag _ ST_AUTO && negb (flag _ ST_SEARCH));
      [|destruct (Qltb _ 108)]|]);
    rewrite go_down_eq;
    (destruct (flag _ ST_GO_DOWN);
     [destruct (flag _ ST_AUTO && negb (flag _ ST_SEARCH));
      [|destruct (Qltb 88 _)]|]);
    (eexists; split; [reflexivity | repeat constructor]).
Qed.

End Traces.

(** ** The signal level *)

(** C9.  For every signalLevel in 0..15 the displayed signal percentage
    equals floor(signalLevel * 100 / 15) in exact integer arithmetic: it is
    the one number a pass of [loop] with a reading prints; signalLevel 15
    displays 100 and signalLevel 0 displays 0. *)
Theorem C9_signal_percent (env : loop_env) (m : machine) :
  read_status env = 1 ->
  0 <= signal_level (buf env) <= 15 ->
  printed_ints (trace (loop env m)) = [signal_level (buf env) * 100 / 15] /\
  percent 15 = 100 /\
  percent 0 = 0.
Proof.
  intros Hread Hlevel. split; [|split; reflexivity].
  destruct (loop_after_refresh env m) as (tail & -> & Htail).
  rewrite printed_ints_app, (off_display_printed_ints tail Htail), app_nil_r.
  rewrite refresh_eq, Hread. simpl Z.eqb. cbv iota. unfold trace, snd.
  rewrite printed_ints_app. simpl (printed_ints [_; _; _]). simpl app.
  unfold reading_calls, scale_calls.
  replace (signal_level (buf env) * 100 / 15)
    with (percent (signal_level (buf env)))
    by (unfold percent; apply Z.quot_div_nonneg; lia).
  generalize (percent (signal_level (buf env))); intros p.
  destruct (0 <? lcdMajor _), (lcdMajor _ <? 15), (p <? 100), (Qltb _ 100),
    (truthy _); reflexivity.
Qed.

Lemma C9_signal_percent_witness :
  let env := {| read_status := 1;
                buf := {| frequency_available := 100004120;
                          stereo := 1; signal_level := 7 |};
                process_search := 0 |} in
  printed_ints (trace (loop env power_on)) = [46] /\
  percent 15 = 100 /\
  percent 0 = 0.
Proof.
  intros env.
  apply (C9_signal_percent env power_on); [reflexivity | simpl; lia].
Defined.

(** ** A pass without a reading *)



(** ** The status register *)

Section StatusRegister.

Ltac flag_index := unfold ST_AUTO, ST_STEREO, ST_GO_UP, ST_GO_DOWN, ST_SEARCH; lia.

Ltac split_bit bit :=
  destruct (Z.eqb_spec bit ST_GO_UP) as [->|?];
  [|destruct (Z.eqb_spec bit ST_GO_DOWN) as [->|?];
    [|destruct (Z.eqb_spec bit ST_SEARCH) as [->|?];
      [|destruct (Z.eqb_spec bit ST_AUTO) as [->|?]]]].

Lemma refresh_status (env : loop_env) (m : machine) :
  status (final (refresh env m)) = status m.
Proof.
  rewrite refresh_eq. destruct (read_status env =? 1); reflexivity.
Qed.

Lemma poll_search_status env dir m bit :
  0 <= bit < 8 ->
  Z.testbit (status (final (poll_search env dir m))) bit
  = if bit =? ST_SEARCH
    then Z.testbit (status m) ST_SEARCH && negb (process_search env =? 1)
    else Z.testbit (status m) bit.
Proof.
  intros Hbit. rewrite poll_search_eq, flag_testbit by flag_index.
  destruct (Z.testbit (status m) ST_SEARCH) eqn:Hs;
    [destruct (process_search env =? 1)|];
    unfold final; cbn [fst snd status];
    rewrite ?testbit_bitWrite by flag_index;
    destruct (Z.eqb_spec bit ST_SEARCH) as [->|?]; auto.
Qed.

Lemma go_up_status dir m bit :
  0 <= bit < 8 ->
  Z.testbit (status (final (go_up dir m))) bit
  = if bit =? ST_GO_UP then false
    else if bit =? ST_SEARCH
    then Z.testbit (status m) ST_SEARCH
         || (Z.testbit (status m) ST_GO_UP && Z.testbit (status m) ST_AUTO)
    else Z.testbit (status m) bit.
Proof.
  intros Hbit. rewrite go_up_eq, !flag_testbit by flag_index.
  destruct (Z.testbit (status m) ST_GO_UP) eqn:Hup,
           (Z.testbit (status m) ST_AUTO) eqn:Hauto,
           (Z.testbit (status m) ST_SEARCH) eqn:Hsearch;
    cbn [andb negb orb]; try destruct (Qltb (frequency m) 108);
    unfold final; cbn [fst snd status];
    rewrite ?testbit_bitWrite by flag_index;
    split_bit bit; try discriminate; auto.
Qed.

Lemma go_down_status dir m bit :
  0 <= bit < 8 ->
  Z.testbit (status (final (go_down dir m))) bit
  = if bit =? ST_GO_DOWN then false
    else if bit =? ST_SEARCH
    then Z.testbit (status m) ST_SEARCH
         || (Z.testbit (status m) ST_GO_DOWN && Z.testbit (status m) ST_AUTO)
    else Z.testbit (status m) bit.
Proof.
  intros Hbit. rewrite go_down_eq, !flag_testbit by flag_index.
  destruct (Z.testbit (status m) ST_GO_DOWN) eqn:Hdown,
           (Z.testbit (status m) ST_AUTO) eqn:Hauto,
           (Z.testbit (status m) ST_SEARCH) eqn:Hsearch;
    cbn [andb negb orb]; try destruct (Qltb 88 (frequency m));
    unfold final; cbn [fst snd status];
    rewrite ?testbit_bitWrite by flag_index;
    split_bit bit; try discriminate; auto.
Qed.

Lemma loop_final (env : loop_env) (m : machine) :
  final (loop env m)
  = final (go_down (result (go_up None
             (final (poll_search env None (final (refresh env m))))))
           (final (go_up None
             (final (poll_search env None (final (refresh env m))))))).
Proof.
  unfold loop, bind, final, result.
  destruct (refresh env m) as [[[] m1] t1]; cbn [fst snd].
  destruct (poll_search env None m1) as [[[] m2] t2]; cbn [fst snd].
  destruct (go_up None m2) as [[d3 m3] t3]; cbn [fst snd].
  destruct (go_down d3 m3) as [[d4 m4] t4]; reflexivity.
Qed.

(** The bits of the status byte after one pass of [loop]. *)
Lemma loop_status env m bit :
  0 <= bit < 8 ->
  Z.testbit (status (final (loop env m))) bit
  = if bit =? ST_GO_UP then false
    else if bit =? ST_GO_DOWN then false
    else if bit =? ST_SEARCH
    then (Z.testbit (status m) ST_SEARCH && negb (process_search env =? 1))
         || (Z.testbit (status m) ST_GO_UP && Z.testbit (status m) ST_AUTO)
         || (Z.testbit (status m) ST_GO_DOWN && Z.testbit (status m) ST_AUTO)
    else Z.testbit (status m) bit.
Proof.
  intros Hbit. rewrite loop_final.
  rewrite go_down_status by exact Hbit.
  rewrite !go_up_status by flag_index.
  rewrite !poll_search_status by flag_index.
  rewrite refresh_status.
  change (ST_SEARCH =? ST_GO_UP) with false.
  change (ST_SEARCH =? ST_SEARCH) with true.
  change (ST_GO_DOWN =? ST_GO_UP) with false.
  change (ST_GO_DOWN =? ST_SEARCH) with false.
  change (ST_GO_UP =? ST_SEARCH) with false.
  change (ST_AUTO =? ST_GO_UP) with false.
  change (ST_AUTO =? ST_SEARCH) with false.
  cbv iota.
  split_bit bit; reflexivity.
Qed.

End StatusRegister.

(** C4 (as the sketch has it).  [isrEncoder] only sets flags: it raises
    goUp or goDown and changes no other flag.  [isrSwitch] negates autoMode,
    in either direction, and changes no other flag.  A pass of [loop] leaves
    goUp and goDown cleared and never changes autoMode, stereoDetected or
    the three unused bits; the searching flag it both clears (the tuner
    reports the search complete) and sets (a goUp or goDown event in auto
    mode). *)
Theorem C4_flag_discipline
  (m : machine) (pinB : bool) (env : loop_env) (bit : Z) :
  0 <= bit < 8 ->
  let before := Z.testbit (status m) in
  Z.testbit (status (final (isrEncoder pinB m))) bit
    = before bit || (bit =? (if pinB then ST_GO_UP else ST_GO_DOWN)) /\
  Z.testbit (status (final (isrSwitch m))) bit
    = (if bit =? ST_AUTO then negb (before ST_AUTO) else before bit) /\
  Z.testbit (status (final (loop env m))) bit
    = (if bit =? ST_GO_UP then false
       else if bit =? ST_GO_DOWN then false
       else if bit =? ST_SEARCH
       then (before ST_SEARCH && negb (process_search env =? 1))
            || (before ST_GO_UP && before ST_AUTO)
            || (before ST_GO_DOWN && before ST_AUTO)
       else before bit).
Proof.
  intros Hbit before. subst before. split; [|split].
  - rewrite isrEncoder_eq. unfold final; cbn [fst snd status].
    rewrite testbit_bitWrite by (destruct pinB; unfold ST_GO_UP, ST_GO_DOWN; lia).
    destruct (bit =? (if pinB then ST_GO_UP else ST_GO_DOWN));
      [now rewrite orb_true_r | now rewrite orb_false_r].
  - rewrite isrSwitch_eq. unfold final; cbn [fst snd status].
    rewrite testbit_bitWrite by (unfold ST_AUTO; lia).
    rewrite flag_testbit by (unfold ST_AUTO; lia).
    destruct (bit =? ST_AUTO); [|reflexivity].
    destruct (Z.testbit (status m) ST_AUTO); reflexivity.
  - now apply loop_status.
Qed.

Lemma C4_flag_discipline_witness :
  let m := {| frequency := 88; status := 5 |} in
  let env := {| read_status := 0;
                buf := {| frequency_available := 0;
                          stereo := 0; signal_level := 0 |};
                process_search := 0 |} in
  0 <= ST_SEARCH < 8 /\
  Z.testbit (status (final (isrEncoder false m))) ST_SEARCH = false /\
  Z.testbit (status (final (isrSwitch m))) ST_SEARCH = false /\
  Z.testbit (status (final (loop env m))) ST_SEARCH = true.
Proof.
  intros m env.
  assert (H : 0 <= ST_SEARCH < 8) by (unfold ST_SEARCH; lia).
  split; [exact H | exact (C4_flag_discipline m false env ST_SEARCH H)].
Defined.

(** C4, as claimed, fails twice.  After one press of the switch autoMode is
    set, and the next press of the switch takes it from 1 to 0; with
    autoMode and goUp set and no search running, a pass of [loop] takes the
    searching flag from 0 to 1. *)
Lemma C4_handlers_and_loop_both_ways :
  let quiet_env := {| read_status := 0;
                      buf := {| frequency_available := 0;
                                stereo := 0; signal_level := 0 |};
                      process_search := 0 |} in
  let pressed := final (sketch [Switch]) in
  let turned := final (sketch [Switch; Encoder true]) in
  (flag pressed ST_AUTO = true /\
   flag (final (isrSwitch pressed)) ST_AUTO = false) /\
  (flag turned ST_SEARCH = false /\
   flag (final (loop quiet_env turned)) ST_SEARCH = true).
Proof. vm_compute. repeat split. Qed.

(** ** Adopting the frequency the tuner reports *)

Section Adoption.

Local Open Scope Q_scope.

Lemma tenths_lower (k a : Z) :
  inject_Z a <= inject_Z k / 10 <-> (10 * a <= k)%Z.
Proof.
  rewrite (Zle_Qle (10 * a) k), inject_Z_mult. change (inject_Z 10) with 10.
  generalize (inject_Z a) (inject_Z k); intros x y.
  split; intros H; qlra.
Qed.

Lemma tenths_upper (k a : Z) :
  inject_Z k / 10 <= inject_Z a <-> (k <= 10 * a)%Z.
Proof.
  rewrite (Zle_Qle k (10 * a)), inject_Z_mult. change (inject_Z 10) with 10.
  generalize (inject_Z a) (inject_Z k); intros x y.
  split; intros H; qlra.
Qed.

(** The rounded frequency is on the dial exactly when the reported one is
    within 87.95 MHz (included) and 108.05 MHz (excluded). *)
Lemma nearest_tenth_band (hz : Q) :
  88 <= nearest_tenth hz <= 108 <-> 87950000 <= hz < 108050000.
Proof.
  unfold nearest_tenth, floor.
  change 88 with (inject_Z 88) at 1.
  change 108 with (inject_Z 108) at 1.
  rewrite tenths_lower, tenths_upper.
  assert (Hup : (Qfloor (hz / 100000 + 0.5) <= 10 * 108)%Z
                <-> (Qfloor (hz / 100000 + 0.5) < 1081)%Z) by lia.
  change (10 * 88)%Z with 880%Z.
  rewrite Hup, Qfloor_lower, Qfloor_upper.
  change (inject_Z 880) with 880. change (inject_Z 1081) with 1081.
  split; intros [H1 H2]; split; qlra.
Qed.

(** C10 (as the sketch has it).  Whenever a status snapshot is available
    the display refresh replaces the stored frequency with
    floor(hz / 100000 + 0.5) / 10, and clamps nothing: the stored
    frequency is outside [88.0, 108.0] for every snapshot that reports
    less than 87.95 MHz or at least 108.05 MHz, and inside for every
    other. *)
Theorem C10_adopts_rounded_frequency (env : loop_env) (m : machine) :
  read_status env = 1%Z ->
  let hz := frequency_available (buf env) in
  frequency (final (refresh env m)) = floor (hz / 100000 + 0.5) / 10 /\
  (hz < 87950000 \/ 108050000 <= hz
     -> ~ 88 <= frequency (final (refresh env m)) <= 108) /\
  (87950000 <= hz < 108050000
     -> 88 <= frequency (final (refresh env m)) <= 108).
Proof.
  intros Hread hz. rewrite refresh_eq, Hread. simpl Z.eqb. cbv iota.
  unfold final; cbn [fst snd frequency]. fold hz.
  split; [reflexivity|]. split.
  - intros Hout Hin. apply nearest_tenth_band in Hin. qlra.
  - apply nearest_tenth_band.
Qed.

Lemma C10_adopts_rounded_frequency_witness :
  let env := {| read_status := 1;
                buf := {| frequency_available := 87503128;
                          stereo := 0; signal_level := 9 |};
                process_search := 0 |} in
  frequency (final (refresh env power_on))
    = floor (87503128 / 100000 + 0.5) / 10 /\
  ~ 88 <= frequency (final (refresh env power_on)) <= 108.
Proof.
  intros env.
  destruct (C10_adopts_rounded_frequency env power_on eq_refl)
    as (Hval & Hout & _).
  split; [exact Hval|]. apply Hout. left. reflexivity.
Defined.

(** C10, as claimed, fails next to the band edges: 108.007704 MHz (PLL
    word 13212) is outside [88.0, 108.0] MHz, yet the frequency stored
    for it is 108.0. *)
Lemma C10_just_above_the_band_rounds_into_it :
  let env := {| read_status := 1;
                buf := {| frequency_available := 108007704;
                          stereo := 0; signal_level := 9 |};
                process_search := 0 |} in
  ~ 88000000 <= frequency_available (buf env) <= 108000000 /\
  frequency (final (refresh env power_on)) == 108 /\
  frequency (final (loop env power_on)) == 108 /\
  88 <= frequency (final (loop env power_on)) <= 108.
Proof.
  intros env. split; [|split; [|split; [|split]]].
  - intros [_ H]. vm_compute in H. now apply H.
  - reflexivity.
  - reflexivity.
  - discriminate.
  - discriminate.
Qed.

End Adoption.

(** ** Manual tuning *)

Section ManualTuning.

Local Open Scope Q_scope.

(** C2 (as the sketch has it).  In the non-search branch a goUp event at a
    frequency f below 108.0 sets the frequency to f + 0.1 and retunes to
    it - the bound is tested before the step and nothing is clamped after
    it, so 107.95 becomes 108.05 -, and at 108.0 or above it changes
    nothing and issues no command.  goDown mirrors it: above 88.0 the
    frequency becomes f - 0.1 with one retune, at 88.0 or below nothing
    happens; from a multiple of 0.1 MHz that is at least 88.0 a goDown
    never takes the frequency below 88.0. *)
Theorem C2_manual_step (dir : option search_dir) (m : machine) :
  manual_branch m ->
  (flag m ST_GO_UP = true ->
     (frequency m < 108 ->
        frequency (final (go_up dir m)) = frequency m + 0.1 /\
        trace (go_up dir m) = [RadioSetFrequency (frequency m + 0.1)]) /\
     (108 <= frequency m ->
        frequency (final (go_up dir m)) = frequency m /\
        trace (go_up dir m) = [])) /\
  (flag m ST_GO_DOWN = true ->
     (88 < frequency m ->
        frequency (final (go_down dir m)) = frequency m - 0.1 /\
        trace (go_down dir m) = [RadioSetFrequency (frequency m - 0.1)]) /\
     (frequency m <= 88 ->
        frequency (final (go_down dir m)) = frequency m /\
        trace (go_down dir m) = []) /\
     (forall k : Z, frequency m == inject_Z k / 10 -> 88 <= frequency m ->
        88 <= frequency (final (go_down dir m)))).
Proof.
  unfold manual_branch. intros Hmanual. split; intros Hflag.
  - rewrite go_up_eq, Hflag, Hmanual. split; intros Hf.
    + apply Qltb_lt in Hf. rewrite Hf. split; reflexivity.
    + apply Qltb_ge in Hf. rewrite Hf. split; reflexivity.
  - rewrite go_down_eq, Hflag, Hmanual. split; [|split].
    + intros Hf. apply Qltb_lt in Hf. rewrite Hf. split; reflexivity.
    + intros Hf. apply Qltb_ge in Hf. rewrite Hf. split; reflexivity.
    + intros k Hk Hf. destruct (Qltb 88 (frequency m)) eqn:Hlt;
        unfold final; cbn [fst snd frequency]; [|exact Hf].
      apply Qltb_lt in Hlt. rewrite Hk in Hlt |- *.
      change 88 with (inject_Z 88) in Hlt.
      assert (Hstep : (10 * 88 < k)%Z).
      { apply Z.lt_nge. intros Hle. apply tenths_upper in Hle.
        exact (Qlt_not_le _ _ Hlt Hle). }
      assert (Hk' : inject_Z 88 <= inject_Z (k + -1) / 10)
        by (apply tenths_lower; lia).
      rewrite inject_Z_plus in Hk'.
      change (inject_Z (-1)) with (-1) in Hk'.
      change (inject_Z 88) with 88 in Hk'.
      revert Hk'. generalize (inject_Z k). intros x Hx. qlra.
Qed.

Lemma C2_manual_step_witness :
  let m := {| frequency := 107.9; status := 4 |} in
  manual_branch m /\
  (frequency (final (go_up None m)) = 107.9 + 0.1 /\
   trace (go_up None m) = [RadioSetFrequency (107.9 + 0.1)]).
Proof.
  intros m.
  assert (H : manual_branch m) by reflexivity.
  split; [exact H|].
  apply (C2_manual_step None m H); reflexivity.
Defined.

(** C2, as claimed, fails at 107.95: the step is not clamped, the
    frequency becomes 108.05, not 108.0, and the tuner is told 108.05.
    On the way down 88.05 becomes 87.95, below the floor. *)
Lemma C2_from_107_95_to_108_05 :
  let up := go_up None {| frequency := 107.95; status := 4 |} in
  let down := go_down None {| frequency := 88.05; status := 8 |} in
  (frequency (final up) == 108.05 /\
   ~ frequency (final up) == 108 /\
   retunes (trace up) = [107.95 + 0.1]) /\
  (frequency (final down) == 87.95 /\
   frequency (final down) < 88).
Proof.
  intros up down. repeat split; discriminate.
Qed.

End ManualTuning.

(** ** The frequency over a run *)

Section Band.

Local Open Scope Q_scope.

Lemma on_dial_band (f : Q) : on_dial f -> 88 <= f <= 108.
Proof.
  intros (k & Hk & ->).
  change 88 with (inject_Z 88). change 108 with (inject_Z 108).
  split; [apply tenths_lower | apply tenths_upper]; lia.
Qed.

Lemma on_dial_nearest_tenth (hz : Q) :
  87950000 <= hz < 108050000 -> on_dial (nearest_tenth hz).
Proof.
  intros Hhz. apply nearest_tenth_band in Hhz. revert Hhz.
  unfold nearest_tenth, floor. set (k := Qfloor (hz / 100000 + 0.5)).
  change 88 with (inject_Z 88). change 108 with (inject_Z 108).
  rewrite tenths_lower, tenths_upper. intros Hk.
  exists k. split; [lia | reflexivity].
Qed.

Lemma on_dial_step_up (f : Q) : on_dial f -> f < 108 -> on_dial (f + 0.1).
Proof.
  intros (k & Hk & Hf) Hlt. exists (k + 1)%Z. split.
  - enough (k < 1080)%Z by lia.
    apply Z.lt_nge. intros Hge.
    assert (inject_Z 108 <= inject_Z k / 10) by (apply tenths_lower; lia).
    rewrite <- Hf in H. exact (Qlt_not_le _ _ Hlt H).
  - rewrite Hf, inject_Z_plus. change (inject_Z 1) with 1.
    generalize (inject_Z k); intros x. qlra.
Qed.

Lemma on_dial_step_down (f : Q) : on_dial f -> 88 < f -> on_dial (f - 0.1).
Proof.
  intros (k & Hk & Hf) Hlt. exists (k + -1)%Z. split.
  - enough (880 < k)%Z by lia.
    apply Z.lt_nge. intros Hge.
    assert (inject_Z k / 10 <= inject_Z 88) by (apply tenths_upper; lia).
    rewrite <- Hf in H. exact (Qlt_not_le _ _ Hlt H).
  - rewrite Hf, inject_Z_plus. change (inject_Z (-1)) with (-1).
    generalize (inject_Z k); intros x. qlra.
Qed.

Lemma poll_search_frequency env dir m :
  frequency (final (poll_search env dir m)) = frequency m.
Proof.
  rewrite poll_search_eq.
  destruct (flag m ST_SEARCH); [destruct (process_search env =? 1)%Z|];
    reflexivity.
Qed.

Lemma go_up_on_dial dir m :
  on_dial (frequency m) -> on_dial (frequency (final (go_up dir m))).
Proof.
  intros Hm. rewrite go_up_eq.
  destruct (flag m ST_GO_UP); [|exact Hm].
  destruct (flag m ST_AUTO && negb (flag m ST_SEARCH)); [exact Hm|].
  destruct (Qltb (frequency m) 108) eqn:Hlt; [|exact Hm].
  apply Qltb_lt in Hlt. now apply on_dial_step_up.
Qed.

Lemma go_down_on_dial dir m :
  on_dial (frequency m) -> on_dial (frequency (final (go_down dir m))).
Proof.
  intros Hm. rewrite go_down_eq.
  destruct (flag m ST_GO_DOWN); [|exact Hm].
  destruct (flag m ST_AUTO && negb (flag m ST_SEARCH)); [exact Hm|].
  destruct (Qltb 88 (frequency m)) eqn:Hlt; [|exact Hm].
  apply Qltb_lt in Hlt. now apply on_dial_step_down.
Qed.

Lemma refresh_on_dial env m :
  reading_in_band (Loop env) ->
  on_dial (frequency m) -> on_dial (frequency (final (refresh env m))).
Proof.
  intros Henv Hm. rewrite refresh_eq.
  destruct (Z.eqb_spec (read_status env) 1) as [Hread|_]; [|exact Hm].
  apply on_dial_nearest_tenth, Henv, Hread.
Qed.

Lemma step_on_dial (e : event) (m : machine) :
  reading_in_band e ->
  on_dial (frequency m) -> on_dial (frequency (final (step e m))).
Proof.
  intros He Hm. destruct e as [pinB| |env]; unfold step.
  - rewrite isrEncoder_eq. exact Hm.
  - rewrite isrSwitch_eq. exact Hm.
  - assert (Hloop : on_dial (frequency (final (loop env m)))).
    { rewrite loop_final. apply go_down_on_dial, go_up_on_dial.
      rewrite poll_search_frequency. now apply refresh_on_dial. }
    unfold bind, final in *. destruct (loop env m) as [[d m'] t]. exact Hloop.
Qed.

Lemma run_cons (e : event) (es : list event) (m : machine) :
  final (run (e :: es) m) = final (run es (final (step e m))).
Proof.
  unfold run; simpl for_each. unfold bind, final.
  destruct (step e m) as [[[] m1] t1]; cbn [fst snd].
  destruct (for_each es step m1) as [[[] m2] t2]. reflexivity.
Qed.

Lemma run_on_dial (es : list event) (m : machine) :
  Forall reading_in_band es ->
  on_dial (frequency m) -> on_dial (frequency (final (run es m))).
Proof.
  intros Hes. revert m. induction Hes as [|e es He _ IH]; intros m Hm.
  - exact Hm.
  - rewrite run_cons. apply IH. now apply step_on_dial.
Qed.

Lemma setup_final : final (setup power_on) = power_on.
Proof. reflexivity. Qed.

Lemma sketch_final (es : list event) :
  final (sketch es) = final (run es power_on).
Proof.
  unfold sketch, bind, final.
  pose proof setup_final as Hs. unfold final in Hs.
  destruct (setup power_on) as [[[] m0] t0]; cbn [fst snd] in *. subst m0.
  destruct (run es power_on) as [[[] m1] t1]. reflexivity.
Qed.

(** With the frequency taken as an exact decimal number - no rounding in
    the two steps of 0.1 - the stored frequency stays a whole number of
    tenths of a MHz within [88.0, 108.0] as long as every status snapshot
    adopted on the way reports at least 87.95 MHz and less than 108.05 MHz.
    The floats of the target round; what holds for them is in the
    section on the frequency in single precision below. *)
Lemma exact_frequency_stays_on_dial (es : list event) :
  Forall reading_in_band es ->
  88 <= frequency (final (sketch es)) <= 108 /\
  exists k : Z, frequency (final (sketch es)) == inject_Z k / 10.
Proof.
  intros Hes.
  assert (Hdial : on_dial (frequency (final (sketch es)))).
  { rewrite sketch_final. apply run_on_dial; [exact Hes|].
    exists 880%Z. split; [lia | reflexivity]. }
  split; [now apply on_dial_band|].
  destruct Hdial as (k & _ & Hk). now exists k.
Qed.

(** C1, as claimed, fails on the adoption of a snapshot: the tuner
    stopped at its lower band limit reports 87.503128 MHz (PLL word
    10709), and the state after that pass of [loop] holds 87.5. *)
Lemma C1_band_limit_snapshot_leaves_the_dial :
  let env := {| read_status := 1;
                buf := {| frequency_available := 87503128;
                          stereo := 0; signal_level := 9 |};
                process_search := 0 |} in
  reachable (final (sketch [Loop env])) /\
  frequency (final (sketch [Loop env])) == 87.5 /\
  ~ 88 <= frequency (final (sketch [Loop env])) <= 108.
Proof.
  intros env. split; [|split].
  - exists [Loop env]. reflexivity.
  - reflexivity.
  - intros [H _]. vm_compute in H. now apply H.
Qed.

End Band.

(** ** Searching *)

Section Searching.

(** A search is started by goUp only in auto mode with no search running. *)
Lemma go_up_starts_search dir m :
  In RadioSearchUp (trace (go_up dir m)) ->
  flag m ST_GO_UP = true /\ flag m ST_AUTO = true /\ flag m ST_SEARCH = false.
Proof.
  rewrite go_up_eq.
  destruct (flag m ST_GO_UP); [|intros []].
  destruct (flag m ST_AUTO), (flag m ST_SEARCH); cbn [andb negb];
    try destruct (Qltb (frequency m) 108); unfold trace; cbn [snd In];
    intros H; repeat (destruct H as [H|H]; try discriminate H);
    try contradiction; repeat split.
Qed.

Lemma go_down_starts_search dir m :
  In RadioSearchDown (trace (go_down dir m)) ->
  flag m ST_GO_DOWN = true /\ flag m ST_AUTO = true /\ flag m ST_SEARCH = false.
Proof.
  rewrite go_down_eq.
  destruct (flag m ST_GO_DOWN); [|intros []].
  destruct (flag m ST_AUTO), (flag m ST_SEARCH); cbn [andb negb];
    try destruct (Qltb 88 (frequency m)); unfold trace; cbn [snd In];
    intros H; repeat (destruct H as [H|H]; try discriminate H);
    try contradiction; repeat split.
Qed.

(** While a search is running, goUp and goDown take the branch of manual
    tuning, whatever autoMode is. *)
Lemma searching_takes_manual_branch (m : machine) :
  flag m ST_SEARCH = true -> manual_branch m.
Proof.
  unfold manual_branch. intros ->. destruct (flag m ST_AUTO); reflexivity.
Qed.

Lemma go_up_while_searching dir m :
  flag m ST_GO_UP = true -> flag m ST_SEARCH = true ->
  (frequency m < 108)%Q ->
  go_up dir m
  = (dir,
     {| frequency := (frequency m + 0.1)%Q;
        status := bitWrite (status m) ST_GO_UP 0 |},
     [RadioSetFrequency (frequency m + 0.1)%Q]).
Proof.
  intros Hup Hsearch Hlt. apply Qltb_lt in Hlt.
  rewrite go_up_eq, Hup, (searching_takes_manual_branch m Hsearch), Hlt.
  reflexivity.
Qed.

Lemma go_down_while_searching dir m :
  flag m ST_GO_DOWN = true -> flag m ST_SEARCH = true ->
  (88 < frequency m)%Q ->
  go_down dir m
  = (dir,
     {| frequency := (frequency m - 0.1)%Q;
        status := bitWrite (status m) ST_GO_DOWN 0 |},
     [RadioSetFrequency (frequency m - 0.1)%Q]).
Proof.
  intros Hdown Hsearch Hlt. apply Qltb_lt in Hlt.
  rewrite go_down_eq, Hdown, (searching_takes_manual_branch m Hsearch), Hlt.
  reflexivity.
Qed.

(** C3, at the input where the sketch departs from it.  In auto mode a
    goUp event starts a search; a second goUp event arrives while that
    search is running and the tuner does not report it complete.  The
    pass of [loop] that consumes the second event starts no second search,
    but it does not drop the event either: it takes the branch commented
    "Manual tuning mode", moves the frequency from 88.0 to 88.1 and
    commands the tuner to retune there, which is a manual frequency step
    in an iteration where searching is set before and after. *)
Theorem C3_goUp_while_searching_steps_the_frequency :
  let searching := final (sketch [Switch; Encoder true; Loop no_status]) in
  let pending := final (isrEncoder true searching) in
  let pass := loop no_status pending in
  (flag searching ST_AUTO = true /\ flag searching ST_SEARCH = true /\
   frequency searching == 88) /\
  flag pending ST_GO_UP = true /\
  (flag (final pass) ST_SEARCH = true /\ flag (final pass) ST_GO_UP = false) /\
  frequency (final pass) == 88.1 /\
  radio_commands (trace pass) = [RadioSetFrequency (88 + 0.1)].
Proof. vm_compute. repeat split. Qed.

End Searching.

(** ** The needle on the display *)

Section Needle.

(** C6, at the inputs where the sketch departs from it.  With the needle
    drawn at 88.0 MHz (column 0), a snapshot of 100.0 MHz - the station a
    search stopped at - draws the needle at column 9 and blanks columns 8
    and 10 only: the needle of column 0 stays, two needle glyphs are
    visible.  And a snapshot of 87.5 MHz gives lcdMinor = -2, so the glyph
    written at column 0 is byte 254, none of the five needle glyphs. *)
Theorem C6_needle_left_behind_and_needle_missing :
  (Lcd.line (screen [Loop (tuned 88002840)]) 0
     = [0; 5; 5; 5; 5; 5; 5; 5; 5; 5; 5; 5; 5; 5; 5; 5] /\
   Lcd.line (screen [Loop (tuned 88002840); Loop (tuned 100004120)]) 0
     = [0; 5; 5; 5; 5; 5; 5; 5; 5; 3; 5; 5; 5; 5; 5; 5] /\
   Lcd.needles (screen [Loop (tuned 88002840); Loop (tuned 100004120)])
     = 2%nat) /\
  (lcdMinor 87.5 = -2 /\
   Lcd.line (screen [Loop (tuned 87503128)]) 0
     = [254; 5; 5; 5; 5; 5; 5; 5; 5; 5; 5; 5; 5; 5; 5; 5] /\
   Lcd.needles (screen [Loop (tuned 87503128)]) = 0%nat).
Proof. vm_compute. repeat split. Qed.

End Needle.

(** ** Six steps up from 88.0 *)

Section SixSteps.

Local Open Scope Q_scope.

(** In manual mode, idle, below 108.0: the pass steps the frequency up
    once, after the refresh, and retunes once. *)
Lemma tuning_pass_eq (env : loop_env) (m : machine) :
  status m = 0%Z ->
  Qltb (refreshed env (frequency m)) 108 = true ->
  run (tuning_pass env) m
  = (tt,
     {| frequency := refreshed env (frequency m) + 0.1; status := 0 |},
     [Delay 50]
     ++ trace (refresh env {| frequency := frequency m; status := 4 |})
     ++ [RadioSetFrequency (refreshed env (frequency m) + 0.1)]).
Proof.
  destruct m as [f s]. cbn [status frequency]. intros -> Hlt.
  unfold run, tuning_pass. cbn [for_each step].
  unfold bind at 1. rewrite isrEncoder_eq. cbn [status frequency].
  change (bitWrite 0 ST_GO_UP 1) with 4%Z.
  unfold bind at 1. unfold bind at 1. rewrite loop_eq.
  unfold refreshed in *. rewrite refresh_eq.
  destruct (read_status env =? 1)%Z;
    rewrite poll_search_eq; unfold flag at 1; cbn [status];
    change (truthy (bitRead 4 ST_SEARCH)) with false; cbv iota;
    rewrite go_up_eq; unfold flag at 1 2 3; cbn [status frequency];
    change (truthy (bitRead 4 ST_GO_UP)) with true;
    change (truthy (bitRead 4 ST_AUTO)) with false;
    cbn [andb]; cbv iota; rewrite Hlt;
    rewrite go_down_eq; unfold flag at 1; cbn [status];
    change (bitWrite 4 ST_GO_UP 0) with 0%Z;
    change (truthy (bitRead 0 ST_GO_DOWN)) with false; cbv iota;
    unfold ret, trace; cbn [snd]; rewrite ?app_nil_r, <- ?app_assoc;
    reflexivity.
Qed.

Lemma run_app (es es' : list event) (m : machine) :
  run (es ++ es') m
  = (tt, final (run es' (final (run es m))),
     trace (run es m) ++ trace (run es' (final (run es m)))).
Proof.
  revert m. induction es as [|e es IH]; intros m.
  - change (final (run [] m)) with m.
    change (trace (run [] m)) with (@nil effect). cbn [app].
    destruct (run es' m) as [[[] m'] t']. reflexivity.
  - unfold run in *. cbn [app for_each]. unfold bind.
    destruct (step e m) as [[[] m1] t1]. rewrite IH.
    unfold final, trace. cbn [fst snd].
    destruct (for_each es step m1) as [[[] m2] t2]. cbn [fst snd].
    rewrite app_assoc. reflexivity.
Qed.

Lemma refreshed_tenths env f k :
  quiet env \/ reports env k ->
  f == inject_Z k / 10 -> refreshed env f == inject_Z k / 10.
Proof.
  unfold refreshed, quiet, reports. intros [Hq|[Hr Hk]] Hf.
  - destruct (Z.eqb_spec (read_status env) 1); [contradiction|exact Hf].
  - rewrite Hr. simpl Z.eqb. cbv iota. unfold nearest_tenth, floor.
    rewrite Hk. reflexivity.
Qed.

Lemma refresh_needle_draws env m :
  needle_draws (trace (refresh env m))
  = if (read_status env =? 1)%Z then 1%nat else 0%nat.
Proof.
  rewrite refresh_eq. destruct (read_status env =? 1)%Z; [|reflexivity].
  unfold trace; cbn [snd]. rewrite needle_draws_app.
  unfold reading_calls, scale_calls.
  destruct (0 <? lcdMajor _)%Z, (lcdMajor _ <? 15)%Z, (percent _ <? 100)%Z,
    (Qltb _ 100), (truthy _); reflexivity.
Qed.

Lemma refresh_retunes env m : retunes (trace (refresh env m)) = [].
Proof.
  rewrite refresh_eq. destruct (read_status env =? 1)%Z; [|reflexivity].
  unfold trace; cbn [snd]. rewrite retunes_app.
  unfold reading_calls, scale_calls.
  destruct (0 <? lcdMajor _)%Z, (lcdMajor _ <? 15)%Z, (percent _ <? 100)%Z,
    (Qltb _ 100), (truthy _); reflexivity.
Qed.

Lemma passes_spec (envs : list loop_env) :
  forall (k : Z) (m : machine),
    status m = 0%Z ->
    frequency m == inject_Z k / 10 ->
    (k + Z.of_nat (List.length envs) <= 1080)%Z ->
    tracking k envs ->
    let r := run (flat_map tuning_pass envs) m in
    status (final r) = 0%Z /\
    frequency (final r) == inject_Z (k + Z.of_nat (List.length envs)) / 10 /\
    Forall2 Qeq (retunes (trace r)) (tenths_from k (List.length envs)) /\
    needle_draws (trace r) = readings envs.
Proof.
  induction envs as [|env envs IH]; intros k m Hs Hf Hk Htrack r.
  - subst r. cbn. rewrite Z.add_0_r. repeat split; [exact Hs | exact Hf | constructor].
  - destruct Htrack as [Henv Htrack].
    pose proof (refreshed_tenths env (frequency m) k Henv Hf) as Href.
    assert (Hlt : Qltb (refreshed env (frequency m)) 108 = true).
    { apply Qltb_lt. rewrite Href. change 108 with (inject_Z 108).
      apply Qnot_le_lt. intros Hle. apply tenths_lower in Hle.
      cbn [List.length] in Hk. lia. }
    pose proof (tuning_pass_eq env m Hs Hlt) as Hpass.
    subst r. cbn [flat_map]. rewrite run_app, Hpass.
    unfold final at 2 4 6 8, trace at 1 3. cbn [fst snd].
    set (m1 := {| frequency := refreshed env (frequency m) + 0.1;
                  status := 0 |}).
    assert (Hf1 : frequency m1 == inject_Z (k + 1) / 10).
    { subst m1. cbn [frequency]. rewrite Href, inject_Z_plus.
      change (inject_Z 1) with 1. generalize (inject_Z k); intros x. qlra. }
    cbn [List.length] in Hk.
    destruct (IH (k + 1)%Z m1 eq_refl Hf1 ltac:(lia) Htrack)
      as (IHs & IHf & IHr & IHn).
    unfold final, trace; cbn [fst snd].
    unfold final, trace in IHs, IHf, IHr, IHn.
    repeat split.
    + exact IHs.
    + rewrite IHf. cbn [List.length].
      replace (k + 1 + Z.of_nat (List.length envs))%Z
        with (k + Z.of_nat (S (List.length envs)))%Z by lia.
      reflexivity.
    + rewrite !retunes_app. cbn [retunes app].
      change (snd (refresh env {| frequency := frequency m; status := 4 |}))
        with (trace (refresh env {| frequency := frequency m; status := 4 |})).
      rewrite refresh_retunes. cbn [app List.length tenths_from].
      constructor; [|exact IHr].
      rewrite Href, inject_Z_plus. change (inject_Z 1) with 1.
      generalize (inject_Z k); intros x. qlra.
    + rewrite !needle_draws_app.
      change (snd (refresh env {| frequency := frequency m; status := 4 |}))
        with (trace (refresh env {| frequency := frequency m; status := 4 |})).
      rewrite refresh_needle_draws, IHn.
      unfold readings. cbn [filter].
      destruct (read_status env =? 1)%Z; reflexivity.
Qed.

End SixSteps.

Section SixStepsFromPowerOn.

Local Open Scope Q_scope.

Lemma Forall2_Qeq_trans (l1 l2 l3 : list Q) :
  Forall2 Qeq l1 l2 -> Forall2 Qeq l2 l3 -> Forall2 Qeq l1 l3.
Proof.
  intros H12. revert l3. induction H12 as [|x y l1 l2 Hxy _ IH]; intros l3 H23.
  - inversion H23. constructor.
  - inversion H23 as [|y' z l2' l3' Hyz H23']; subst.
    constructor; [now rewrite Hxy | now apply IH].
Qed.

(** C7, as claimed, fails when the tuner has no status to report: the
    six goUp events take the frequency to 88.6 and issue six retune
    commands, but no pass redraws the needle, and the dial shows the bare
    scale that [setup] drew. *)
Lemma C7_no_snapshot_no_needle :
  let es := flat_map tuning_pass (repeat no_status 6) in
  let r := run es (final (setup power_on)) in
  frequency (final r) == 88.6 /\
  List.length (retunes (trace r)) = 6%nat /\
  needle_draws (trace r) = 0%nat /\
  Lcd.needles (screen es) = 0%nat.
Proof. vm_compute. repeat split. Qed.

End SixStepsFromPowerOn.

(** ** What one run of updateScale leaves on the display *)

Section NeedleCells.

Lemma to_byte_small (z : Z) : 0 <= z < 256 -> to_byte z = z.
Proof. intros H. unfold to_byte. now apply Z.mod_small. Qed.

(** At 88.0 MHz and above: the needle glyph [lcdMinor] goes to column
    [lcdMajor] of the top row, the visible cells next to it get the blank
    scale glyph, every other cell keeps its glyph. *)
Lemma scale_calls_cells (f : Q) (d : Lcd.display) (c r : Z) :
  (88 <= f)%Q ->
  Lcd.cell (Lcd.render (scale_calls f) d) c r
  = if (r =? 0) && (c =? lcdMajor f) then lcdMinor f
    else if (r =? 0) && (0 <=? c) && (c <=? 15)
            && ((c =? lcdMajor f - 1) || (c =? lcdMajor f + 1))
    then SCALE_CLEAR
    else Lcd.cell d c r.
Proof.
  intros Hf.
  pose proof (lcdMajor_range f Hf) as HM.
  pose proof (lcdMinor_range f Hf) as Hm.
  unfold scale_calls.
  rewrite (to_byte_small (lcdMinor f)) by lia.
  revert HM Hm. generalize (lcdMajor f) (lcdMinor f). intros M m HM Hm.
  destruct (Z.ltb_spec 0 M) as [Hpos|Hzero];
    destruct (Z.ltb_spec M 15) as [Hlt|Hge];
    rewrite to_byte_small by lia;
    unfold Lcd.render, SCALE_CLEAR; cbn [app fold_left Lcd.apply];
    unfold Lcd.put; cbn [Lcd.cell Lcd.col Lcd.row];
    repeat match goal with
           | |- context [Z.eqb ?a ?b] => destruct (Z.eqb_spec a b)
           | |- context [Z.leb ?a ?b] => destruct (Z.leb_spec a b)
           end; cbn [andb orb]; try reflexivity; lia.
Qed.

Lemma needle_count (M : Z) :
  0 <= M <= 15 ->
  List.length (filter (fun n => Z.of_nat n =? M) (seq 0 16)) = 1%nat.
Proof.
  intros H.
  assert (Hcases : M = 0 \/ M = 1 \/ M = 2 \/ M = 3 \/ M = 4 \/ M = 5 \/ M = 6
                   \/ M = 7 \/ M = 8 \/ M = 9 \/ M = 10 \/ M = 11 \/ M = 12
                   \/ M = 13 \/ M = 14 \/ M = 15) by lia.
  repeat (destruct Hcases as [->|Hcases]; [reflexivity|]).
  subst M. reflexivity.
Qed.

Lemma filter_map_swap {A B} (p : B -> bool) (g : A -> B) (l : list A) :
  filter p (map g l) = map g (filter (fun x => p (g x)) l).
Proof.
  induction l as [|x l IH]; [reflexivity|].
  cbn [map filter]. destruct (p (g x)); cbn [map]; now rewrite IH.
Qed.

(** When the needles shown before the update, if any, sit in the cell the
    new needle goes to or in one next to it, exactly one needle glyph is
    visible after the update. *)
Lemma updateScale_one_needle (f : Q) (d : Lcd.display) :
  (88 <= f)%Q ->
  (forall c, 0 <= c <= 15 -> Lcd.is_needle (Lcd.cell d c 0) = true ->
             lcdMajor f - 1 <= c <= lcdMajor f + 1) ->
  Lcd.needles (Lcd.render (scale_calls f) d) = 1%nat.
Proof.
  intros Hf Hnear.
  pose proof (lcdMajor_range f Hf) as HM.
  pose proof (lcdMinor_range f Hf) as Hm.
  unfold Lcd.needles, Lcd.line.
  rewrite filter_map_swap, length_map.
  etransitivity; [|exact (needle_count (lcdMajor f) HM)]. f_equal.
  apply filter_ext_in. intros n Hn. apply in_seq in Hn.
  rewrite scale_calls_cells by exact Hf. cbn [Z.eqb andb].
  destruct (Z.eqb_spec (Z.of_nat n) (lcdMajor f)) as [Heq|Hne].
  - unfold Lcd.is_needle.
    apply andb_true_iff; split; [apply Z.leb_le | apply Z.leb_le]; lia.
  - destruct ((0 <=? Z.of_nat n) && (Z.of_nat n <=? 15)
              && ((Z.of_nat n =? lcdMajor f - 1) || (Z.of_nat n =? lcdMajor f + 1)))
      eqn:Hnb; [reflexivity|].
    destruct (Lcd.is_needle (Lcd.cell d (Z.of_nat n) 0)) eqn:Hold; [|reflexivity].
    apply Hnear in Hold; [|lia]. exfalso.
    assert (H0 : (0 <=? Z.of_nat n) = true) by (apply Z.leb_le; lia).
    assert (H15 : (Z.of_nat n <=? 15) = true) by (apply Z.leb_le; lia).
    rewrite H0, H15 in Hnb. cbn [andb] in Hnb.
    apply orb_false_iff in Hnb. destruct Hnb as [H1 H2].
    apply Z.eqb_neq in H1, H2. lia.
Qed.

End NeedleCells.

(** ** The same steps in single precision *)

Section SinglePrecision.

Import Binary32.

(** From 107.95 the step gives 14162329 / 2^17, about 108.05: above 108 in
    binary32 as in exact arithmetic. *)
Lemma binary32_step_from_107_95 :
  let f := step_up (div (of_int 10795) (of_int 100)) in
  f = S754_finite false 14162329 (-17) /\ (108 < to_Q f)%Q.
Proof. split; reflexivity. Qed.

(** From 107.9 the step gives exactly 108, and at 108 nothing moves; down
    from 88.1 gives exactly 88. *)
Lemma binary32_steps_at_the_ends :
  step_up (of_tenths 1079) = of_int 108 /\
  step_up (of_int 108) = of_int 108 /\
  step_down (of_tenths 881) = of_int 88 /\
  step_down (of_int 88) = of_int 88.
Proof. repeat split; reflexivity. Qed.

(** X18.  One step up, one step down, or both, from any tenth of the dial stays
    within [88, 108]. *)
Lemma binary32_dial_steps_in_band (k : Z) :
  880 <= k <= 1080 ->
  in_band (step_up (of_tenths k)) = true /\
  in_band (step_down (of_tenths k)) = true /\
  in_band (step_down (step_up (of_tenths k))) = true.
Proof.
  intros Hk.
  assert (Hall : forallb (fun k => in_band (step_up (of_tenths k))
                                   && in_band (step_down (of_tenths k))
                                   && in_band (step_down (step_up (of_tenths k))))
                   dial = true) by (vm_compute; reflexivity).
  rewrite forallb_forall in Hall.
  assert (Hin : In k dial).
  { unfold dial. apply in_map_iff. exists (Z.to_nat (k - 880)).
    split; [lia | apply in_seq; lia]. }
  apply Hall in Hin. apply andb_true_iff in Hin. destruct Hin as [Hin H3].
  apply andb_true_iff in Hin. destruct Hin as [H1 H2]. auto.
Qed.

(** Six steps from 88.0 with a snapshot adopted before each: the last one
    goes from 88.5 to the float of 88.6.  Six steps with nothing adopted in
    between end one unit in the last place below it. *)
Lemma binary32_six_steps :
  step_up (of_tenths 885) = of_tenths 886 /\
  of_tenths 886 = S754_finite false 11612979 (-17) /\
  Nat.iter 6 step_up (of_int 88) = S754_finite false 11612978 (-17).
Proof. repeat split; reflexivity. Qed.

(** Without a snapshot to round it again the rounding error adds up: 200
    steps from 88.0 end just below 108, and one more step is taken. *)
Lemma binary32_steps_drift :
  (to_Q (Nat.iter 200 step_up (of_int 88)) < 108)%Q /\
  (108 < to_Q (Nat.iter 201 step_up (of_int 88)))%Q.
Proof. split; vm_compute; reflexivity. Qed.

End SinglePrecision.

(** * Further properties of the sketch *)

(** ** The handlers and the status byte over a run *)

Section StatusOverRuns.

Ltac flag_index := unfold ST_AUTO, ST_STEREO, ST_GO_UP, ST_GO_DOWN, ST_SEARCH; lia.

Lemma to_byte_range (z : Z) : 0 <= to_byte z < 256.
Proof. unfold to_byte. apply Z.mod_pos_bound. lia. Qed.

Lemma bitWrite_range (v bit bitvalue : Z) : 0 <= bitWrite v bit bitvalue < 256.
Proof.
  unfold bitWrite, bitSet, bitClear.
  destruct (bitvalue =? 0); apply to_byte_range.
Qed.

Lemma testbit_byte_high (v i : Z) : 0 <= v < 256 -> 8 <= i -> Z.testbit v i = false.
Proof.
  intros Hv Hi. rewrite <- (Z.mod_small v 256) by exact Hv.
  fold (to_byte v). rewrite testbit_to_byte.
  destruct (Z.ltb_spec i 8); [lia | reflexivity].
Qed.

(** Two bytes with the same eight bits are the same byte. *)
Lemma byte_ext (a b : Z) :
  0 <= a < 256 -> 0 <= b < 256 ->
  (forall i, 0 <= i < 8 -> Z.testbit a i = Z.testbit b i) -> a = b.
Proof.
  intros Ha Hb Hbits. apply Z.bits_inj'. intros i Hi.
  destruct (Z.lt_ge_cases i 8) as [Hlt|Hge].
  - apply Hbits. lia.
  - rewrite !testbit_byte_high by assumption. reflexivity.
Qed.

(** X1.  A press of the switch negates autoMode and leaves the seven other
    bits of the status byte and the frequency as they were, so that a second
    press gives back the state before the first. *)
Theorem isrSwitch_twice (m : machine) :
  0 <= status m < 256 ->
  flag (final (isrSwitch m)) ST_AUTO = negb (flag m ST_AUTO) /\
  (forall bit, 0 <= bit < 8 -> bit <> ST_AUTO ->
     Z.testbit (status (final (isrSwitch m))) bit = Z.testbit (status m) bit) /\
  frequency (final (isrSwitch m)) = frequency m /\
  final (isrSwitch (final (isrSwitch m))) = m.
Proof.
  intros Hm. split; [|split; [|split]].
  - rewrite isrSwitch_eq. unfold final, flag; cbn [fst snd status].
    rewrite !truthy_bitRead by flag_index.
    rewrite testbit_bitWrite by flag_index.
    change (ST_AUTO =? ST_AUTO) with true. cbv iota.
    destruct (Z.testbit (status m) ST_AUTO); reflexivity.
  - intros bit Hbit Hne. rewrite isrSwitch_eq.
    unfold final; cbn [fst snd status].
    rewrite testbit_bitWrite by flag_index.
    destruct (Z.eqb_spec bit ST_AUTO); [contradiction|reflexivity].
  - rewrite isrSwitch_eq. reflexivity.
  - rewrite !isrSwitch_eq. unfold final; cbn [fst snd frequency status].
    destruct m as [f s]; cbn [frequency status] in *. f_equal.
    apply byte_ext; [apply bitWrite_range | exact Hm |].
    intros i Hi. unfold flag; cbn [status].
    rewrite !truthy_bitRead by flag_index.
    rewrite !testbit_bitWrite by flag_index.
    change (ST_AUTO =? ST_AUTO) with true. cbv iota.
    destruct (Z.eqb_spec i ST_AUTO) as [->|Hne]; [|reflexivity].
    destruct (Z.testbit s ST_AUTO); reflexivity.
Qed.

Lemma isrSwitch_twice_witness :
  let m := {| frequency := 101.3; status := 21 |} in
  0 <= status m < 256 /\
  flag (final (isrSwitch m)) ST_AUTO = negb (flag m ST_AUTO) /\
  (forall bit, 0 <= bit < 8 -> bit <> ST_AUTO ->
     Z.testbit (status (final (isrSwitch m))) bit = Z.testbit (status m) bit) /\
  frequency (final (isrSwitch m)) = frequency m /\
  final (isrSwitch (final (isrSwitch m))) = m.
Proof.
  intros m.
  assert (H : 0 <= status m < 256) by (simpl; lia).
  split; [exact H | exact (isrSwitch_twice m H)].
Defined.

(** X2.  Encoder edges are not counted: a second edge in the same direction
    before [loop] has run leaves the state of the first, and an edge in
    each direction leaves both events pending whichever came first. *)
Theorem isrEncoder_coalesces (pinB : bool) (m : machine) :
  final (isrEncoder pinB (final (isrEncoder pinB m)))
    = final (isrEncoder pinB m) /\
  final (isrEncoder true (final (isrEncoder false m)))
    = final (isrEncoder false (final (isrEncoder true m))) /\
  flag (final (isrEncoder true (final (isrEncoder false m)))) ST_GO_UP = true /\
  flag (final (isrEncoder true (final (isrEncoder false m)))) ST_GO_DOWN = true.
Proof.
  rewrite !isrEncoder_eq. unfold final, flag; cbn [fst snd frequency status].
  repeat split.
  - f_equal. apply byte_ext; try apply bitWrite_range.
    intros i Hi.
    rewrite !testbit_bitWrite by (destruct pinB; flag_index).
    destruct (i =? (if pinB then ST_GO_UP else ST_GO_DOWN)); reflexivity.
  - f_equal. apply byte_ext; try apply bitWrite_range.
    intros i Hi. rewrite !testbit_bitWrite by flag_index.
    destruct (i =? ST_GO_UP), (i =? ST_GO_DOWN); reflexivity.
  - rewrite truthy_bitRead, !testbit_bitWrite by flag_index. reflexivity.
  - rewrite truthy_bitRead, !testbit_bitWrite by flag_index. reflexivity.
Qed.

Lemma step_loop_final (env : loop_env) (m : machine) :
  final (step (Loop env) m) = final (loop env m).
Proof.
  unfold step, bind, ret, final. destruct (loop env m) as [[d m'] t]. reflexivity.
Qed.

(** The autoMode bit after one event. *)
Lemma step_auto (e : event) (m : machine) :
  Z.testbit (status (final (step e m))) ST_AUTO
  = match e with
    | Switch => negb (Z.testbit (status m) ST_AUTO)
    | _ => Z.testbit (status m) ST_AUTO
    end.
Proof.
  destruct e as [pinB| |env].
  - unfold step. rewrite isrEncoder_eq. unfold final; cbn [fst snd status].
    rewrite testbit_bitWrite by (destruct pinB; flag_index).
    destruct pinB; reflexivity.
  - unfold step. rewrite isrSwitch_eq. unfold final; cbn [fst snd status].
    rewrite testbit_bitWrite, flag_testbit by flag_index.
    change (ST_AUTO =? ST_AUTO) with true. cbv iota.
    destruct (Z.testbit (status m) ST_AUTO); reflexivity.
  - rewrite step_loop_final, loop_status by flag_index. reflexivity.
Qed.

(** X3.  autoMode changes on a press of the switch and on nothing else: after any
    run it is the autoMode of the start, negated once per press. *)
Theorem autoMode_follows_the_switch (es : list event) (m : machine) :
  Z.testbit (status (final (run es m))) ST_AUTO
  = xorb (Z.testbit (status m) ST_AUTO) (Nat.odd (switches es)).
Proof.
  revert m. induction es as [|e es IH]; intros m.
  - cbn. now rewrite xorb_false_r.
  - rewrite run_cons, IH, step_auto.
    destruct e as [pinB| |env]; cbn [switches]; try reflexivity.
    rewrite Nat.odd_succ, <- Nat.negb_odd.
    destruct (Z.testbit (status m) ST_AUTO), (Nat.odd (switches es)); reflexivity.
Qed.

(** The searching bit after one event that does not report the search
    complete. *)
Lemma step_search_goes_on (e : event) (m : machine) :
  search_goes_on e ->
  Z.testbit (status m) ST_SEARCH = true ->
  Z.testbit (status (final (step e m))) ST_SEARCH = true.
Proof.
  intros He Hs. destruct e as [pinB| |env].
  - unfold step. rewrite isrEncoder_eq. unfold final; cbn [fst snd status].
    rewrite testbit_bitWrite by (destruct pinB; flag_index).
    destruct pinB; exact Hs.
  - unfold step. rewrite isrSwitch_eq. unfold final; cbn [fst snd status].
    rewrite testbit_bitWrite by flag_index. exact Hs.
  - rewrite step_loop_final, loop_status by flag_index.
    change (ST_SEARCH =? ST_GO_UP) with false.
    change (ST_SEARCH =? ST_GO_DOWN) with false.
    change (ST_SEARCH =? ST_SEARCH) with true. cbv iota.
    rewrite Hs. cbn in He.
    destruct (Z.eqb_spec (process_search env) 1); [contradiction|reflexivity].
Qed.

(** X4.  A search has no timeout and no cancel: once searching is set, no
    sequence of encoder edges, switch presses and passes of [loop] clears it
    as long as the tuner does not report the search complete. *)
Theorem search_ends_only_on_completion (es : list event) (m : machine) :
  Forall search_goes_on es ->
  flag m ST_SEARCH = true ->
  flag (final (run es m)) ST_SEARCH = true.
Proof.
  rewrite !flag_testbit by flag_index.
  intros Hes. revert m. induction Hes as [|e es He _ IH]; intros m Hm.
  - exact Hm.
  - rewrite run_cons. apply IH. now apply step_search_goes_on.
Qed.

Lemma search_ends_only_on_completion_witness :
  let m := {| frequency := 95.5; status := 17 |} in
  let es := [Encoder true; Loop no_status; Switch; Encoder false; Loop no_status] in
  Forall search_goes_on es /\ flag m ST_SEARCH = true /\
  flag (final (run es m)) ST_SEARCH = true.
Proof.
  intros m es.
  assert (Hes : Forall search_goes_on es).
  { repeat (apply Forall_cons; [first [exact I | discriminate]|]). apply Forall_nil. }
  assert (Hm : flag m ST_SEARCH = true) by reflexivity.
  split; [exact Hes|]. split; [exact Hm|].
  exact (search_ends_only_on_completion es m Hes Hm).
Defined.

End StatusOverRuns.

(** ** What the status byte never holds *)

Section StatusNeverHolds.

Ltac flag_index := unfold ST_AUTO, ST_STEREO, ST_GO_UP, ST_GO_DOWN, ST_SEARCH; lia.

Lemma poll_search_range env dir m :
  0 <= status m < 256 -> 0 <= status (final (poll_search env dir m)) < 256.
Proof.
  intros Hm. rewrite poll_search_eq.
  destruct (flag m ST_SEARCH); [destruct (process_search env =? 1)|];
    unfold final; cbn [fst snd status]; try exact Hm; apply bitWrite_range.
Qed.

Lemma go_up_range dir m :
  0 <= status m < 256 -> 0 <= status (final (go_up dir m)) < 256.
Proof.
  intros Hm. rewrite go_up_eq.
  destruct (flag m ST_GO_UP);
    [destruct (flag m ST_AUTO && negb (flag m ST_SEARCH));
     [|destruct (Qltb (frequency m) 108)]|];
    unfold final; cbn [fst snd status]; try exact Hm; apply bitWrite_range.
Qed.

Lemma go_down_range dir m :
  0 <= status m < 256 -> 0 <= status (final (go_down dir m)) < 256.
Proof.
  intros Hm. rewrite go_down_eq.
  destruct (flag m ST_GO_DOWN);
    [destruct (flag m ST_AUTO && negb (flag m ST_SEARCH));
     [|destruct (Qltb 88 (frequency m))]|];
    unfold final; cbn [fst snd status]; try exact Hm; apply bitWrite_range.
Qed.

Lemma step_range (e : event) (m : machine) :
  0 <= status m < 256 -> 0 <= status (final (step e m)) < 256.
Proof.
  intros Hm. destruct e as [pinB| |env].
  - unfold step. rewrite isrEncoder_eq. apply bitWrite_range.
  - unfold step. rewrite isrSwitch_eq. apply bitWrite_range.
  - rewrite step_loop_final, loop_final.
    apply go_down_range, go_up_range, poll_search_range.
    now rewrite refresh_status.
Qed.

(** Bit 1 (stereo) and bits 5 to 7 keep their value through every event. *)
Lemma step_spare_bits (e : event) (m : machine) (i : Z) :
  i = 1 \/ 5 <= i < 8 ->
  Z.testbit (status (final (step e m))) i = Z.testbit (status m) i.
Proof.
  intros Hi. destruct e as [pinB| |env].
  - unfold step. rewrite isrEncoder_eq. unfold final; cbn [fst snd status].
    rewrite testbit_bitWrite by (destruct pinB; flag_index).
    destruct pinB;
      match goal with |- context [Z.eqb ?a ?b] => destruct (Z.eqb_spec a b) end;
      try reflexivity; exfalso; revert Hi; subst i; flag_index.
  - unfold step. rewrite isrSwitch_eq. unfold final; cbn [fst snd status].
    rewrite testbit_bitWrite by flag_index.
    destruct (Z.eqb_spec i ST_AUTO); [|reflexivity].
    exfalso; revert Hi; subst i; flag_index.
  - rewrite step_loop_final, loop_status by lia.
    destruct (Z.eqb_spec i ST_GO_UP); [exfalso; revert Hi; subst i; flag_index|].
    destruct (Z.eqb_spec i ST_GO_DOWN); [exfalso; revert Hi; subst i; flag_index|].
    destruct (Z.eqb_spec i ST_SEARCH); [exfalso; revert Hi; subst i; flag_index|].
    reflexivity.
Qed.

Lemma run_status_invariant (es : list event) (m : machine) :
  0 <= status m < 256 ->
  (forall i, i = 1 \/ 5 <= i < 8 -> Z.testbit (status m) i = false) ->
  0 <= status (final (run es m)) < 256 /\
  (forall i, i = 1 \/ 5 <= i < 8 ->
     Z.testbit (status (final (run es m))) i = false).
Proof.
  revert m. induction es as [|e es IH]; intros m Hm Hbits.
  - split; assumption.
  - rewrite run_cons. apply IH.
    + now apply step_range.
    + intros i Hi. rewrite step_spare_bits by exact Hi. now apply Hbits.
Qed.

(** X5.  In every reachable state the status byte is below 32 and the stereo
    flag is clear: the sketch defines ST_STEREO and never writes it, and it
    never touches the three bits above ST_SEARCH. *)
Theorem status_uses_four_flags (m : machine) :
  reachable m -> 0 <= status m < 32 /\ flag m ST_STEREO = false.
Proof.
  intros [es <-]. rewrite sketch_final.
  destruct (run_status_invariant es power_on) as [Hrange Hbits].
  { cbn. lia. }
  { intros i _. cbn. apply Z.testbit_0_l. }
  set (s := status (final (run es power_on))) in *.
  split.
  - assert (Hs : s = s mod 2 ^ 5).
    { apply Z.bits_inj'. intros i Hi. rewrite Z.testbit_mod_pow2 by lia.
      destruct (Z.ltb_spec i 5) as [Hlt|Hge]; [reflexivity|].
      destruct (Z.lt_ge_cases i 8).
      - apply Hbits. lia.
      - now apply testbit_byte_high. }
    rewrite Hs. change 32 with (2 ^ 5). apply Z.mod_pos_bound. lia.
  - rewrite flag_testbit by flag_index. apply Hbits. left. reflexivity.
Qed.

Lemma status_uses_four_flags_witness :
  let m := final (sketch [Switch; Encoder true; Encoder false; Loop no_status]) in
  reachable m /\ 0 <= status m < 32 /\ flag m ST_STEREO = false.
Proof.
  intros m.
  assert (H : reachable m).
  { exists [Switch; Encoder true; Encoder false; Loop no_status]. reflexivity. }
  split; [exact H | exact (status_uses_four_flags m H)].
Defined.

End StatusNeverHolds.

(** ** One pass of loop, block by block *)

Section OnePass.

Local Open Scope Q_scope.

Ltac flag_index := unfold ST_AUTO, ST_STEREO, ST_GO_UP, ST_GO_DOWN, ST_SEARCH; lia.

Lemma loop_trace (env : loop_env) (m : machine) :
  let m1 := final (refresh env m) in
  let m2 := final (poll_search env None m1) in
  let m3 := final (go_up None m2) in
  trace (loop env m)
  = trace (refresh env m) ++ trace (poll_search env None m1)
    ++ trace (go_up None m2) ++ trace (go_down (result (go_up None m2)) m3).
Proof.
  cbv zeta. rewrite loop_eq. unfold final, trace, result.
  destruct (refresh env m) as [[[] m1] t1]; cbn [fst snd].
  destruct (poll_search env None m1) as [[[] m2] t2]; cbn [fst snd].
  destruct (go_up None m2) as [[d3 m3] t3]; cbn [fst snd].
  destruct (go_down d3 m3) as [[d4 m4] t4]. reflexivity.
Qed.

Lemma radio_commands_app (t u : list effect) :
  radio_commands (t ++ u) = radio_commands t ++ radio_commands u.
Proof. apply filter_app. Qed.

Lemma refresh_no_command env m : radio_commands (trace (refresh env m)) = [].
Proof.
  rewrite refresh_eq. destruct (read_status env =? 1)%Z; [|reflexivity].
  unfold trace; cbn [snd]. rewrite radio_commands_app.
  unfold reading_calls, scale_calls.
  destruct (0 <? lcdMajor _)%Z, (lcdMajor _ <? 15)%Z, (percent _ <? 100)%Z,
    (Qltb _ 100), (truthy _); reflexivity.
Qed.

Lemma poll_search_no_command env dir m :
  radio_commands (trace (poll_search env dir m)) = [] /\
  retunes (trace (poll_search env dir m)) = [].
Proof.
  rewrite poll_search_eq.
  destruct (flag m ST_SEARCH); [destruct (process_search env =? 1)%Z|];
    split; reflexivity.
Qed.

Lemma go_up_no_search_down dir m :
  ~ In RadioSearchDown (trace (go_up dir m)).
Proof.
  rewrite go_up_eq.
  destruct (flag m ST_GO_UP); [|intros []].
  destruct (flag m ST_AUTO && negb (flag m ST_SEARCH));
    [|destruct (Qltb (frequency m) 108)]; unfold trace; cbn [snd In];
    intros H; repeat (destruct H as [H|H]; try discriminate H); exact H.
Qed.

Lemma go_down_no_search_up dir m :
  ~ In RadioSearchUp (trace (go_down dir m)).
Proof.
  rewrite go_down_eq.
  destruct (flag m ST_GO_DOWN); [|intros []].
  destruct (flag m ST_AUTO && negb (flag m ST_SEARCH));
    [|destruct (Qltb 88 (frequency m))]; unfold trace; cbn [snd In];
    intros H; repeat (destruct H as [H|H]; try discriminate H); exact H.
Qed.

(** The flags other than searching, and the frequency, as [go_up] finds
    them. *)
Lemma before_go_up env m :
  let m2 := final (poll_search env None (final (refresh env m))) in
  flag m2 ST_AUTO = flag m ST_AUTO /\
  flag m2 ST_GO_UP = flag m ST_GO_UP /\
  flag m2 ST_GO_DOWN = flag m ST_GO_DOWN /\
  flag m2 ST_SEARCH
    = flag m ST_SEARCH && negb (process_search env =? 1)%Z /\
  frequency m2 = refreshed env (frequency m).
Proof.
  cbv zeta. rewrite !flag_testbit by flag_index.
  rewrite !poll_search_status by flag_index. rewrite refresh_status.
  repeat split.
  rewrite poll_search_frequency, refresh_eq. unfold refreshed.
  destruct (read_status env =? 1)%Z; reflexivity.
Qed.

(** X6.  A pass starts a search up only for a goUp event in auto mode with no
    search running (or one the tuner has just reported complete), and a
    search down only for a goDown event under the same conditions and with
    no goUp event pending; it never starts both. *)
Theorem loop_starts_a_search (env : loop_env) (m : machine) :
  (In RadioSearchUp (trace (loop env m)) ->
   flag m ST_GO_UP = true /\ flag m ST_AUTO = true /\
   (flag m ST_SEARCH = false \/ process_search env = 1%Z)) /\
  (In RadioSearchDown (trace (loop env m)) ->
   flag m ST_GO_DOWN = true /\ flag m ST_AUTO = true /\
   flag m ST_GO_UP = false /\
   (flag m ST_SEARCH = false \/ process_search env = 1%Z)) /\
  ~ (In RadioSearchUp (trace (loop env m)) /\
     In RadioSearchDown (trace (loop env m))).
Proof.
  pose proof (loop_trace env m) as Ht. cbv zeta in Ht.
  destruct (before_go_up env m) as (Hauto & Hup & Hdown & Hsearch & _).
  cbv zeta in Hauto, Hup, Hdown, Hsearch.
  set (m2 := final (poll_search env None (final (refresh env m)))) in *.
  assert (Hdone : forall b : bool,
            b && negb (process_search env =? 1)%Z = false ->
            b = false \/ process_search env = 1%Z).
  { intros b Hb. destruct b; [right|left; reflexivity].
    destruct (Z.eqb_spec (process_search env) 1); [assumption|discriminate]. }
  assert (Hcmd : forall e, is_radio_command e = true ->
            In e (trace (loop env m)) ->
            In e (trace (go_up None m2))
            \/ In e (trace (go_down (result (go_up None m2))
                              (final (go_up None m2))))).
  { intros e He Hin.
    assert (Hin' : In e (radio_commands (trace (loop env m))))
      by (apply filter_In; split; assumption).
    rewrite Ht, !radio_commands_app, refresh_no_command in Hin'.
    rewrite (proj1 (poll_search_no_command env None _)) in Hin'.
    cbn [app] in Hin'. apply in_app_or in Hin'.
    destruct Hin' as [H|H]; apply filter_In in H; tauto. }
  assert (Hup_only : In RadioSearchUp (trace (loop env m)) ->
                     In RadioSearchUp (trace (go_up None m2))).
  { intros Hin. destruct (Hcmd RadioSearchUp eq_refl Hin) as [H|H]; [exact H|].
    exfalso. exact (go_down_no_search_up _ _ H). }
  assert (Hdown_only : In RadioSearchDown (trace (loop env m)) ->
                       In RadioSearchDown
                         (trace (go_down (result (go_up None m2))
                                   (final (go_up None m2))))).
  { intros Hin. destruct (Hcmd RadioSearchDown eq_refl Hin) as [H|H]; [|exact H].
    exfalso. exact (go_up_no_search_down _ _ H). }
  assert (Hfrom_up : In RadioSearchUp (trace (loop env m)) ->
            flag m ST_GO_UP = true /\ flag m ST_AUTO = true /\
            (flag m ST_SEARCH = false \/ process_search env = 1%Z)).
  { intros Hin. apply Hup_only, go_up_starts_search in Hin.
    destruct Hin as (H1 & H2 & H3).
    rewrite Hup in H1. rewrite Hauto in H2. rewrite Hsearch in H3.
    repeat split; try assumption. now apply Hdone. }
  assert (Hfrom_down : In RadioSearchDown (trace (loop env m)) ->
            flag m ST_GO_DOWN = true /\ flag m ST_AUTO = true /\
            flag m ST_GO_UP = false /\
            (flag m ST_SEARCH = false \/ process_search env = 1%Z)).
  { intros Hin. apply Hdown_only, go_down_starts_search in Hin.
    destruct Hin as (H1 & H2 & H3).
    rewrite !flag_testbit in H1, H2, H3 by flag_index.
    rewrite !go_up_status in H1, H2, H3 by flag_index.
    change (ST_GO_DOWN =? ST_GO_UP)%Z with false in H1.
    change (ST_GO_DOWN =? ST_SEARCH)%Z with false in H1.
    change (ST_AUTO =? ST_GO_UP)%Z with false in H2.
    change (ST_AUTO =? ST_SEARCH)%Z with false in H2.
    change (ST_SEARCH =? ST_GO_UP)%Z with false in H3.
    change (ST_SEARCH =? ST_SEARCH)%Z with true in H3.
    cbv iota in H1, H2, H3.
    rewrite <- (flag_testbit m2 ST_GO_DOWN) in H1 by flag_index.
    rewrite <- (flag_testbit m2 ST_AUTO) in H2 by flag_index.
    rewrite <- (flag_testbit m2 ST_SEARCH), <- (flag_testbit m2 ST_GO_UP),
      <- (flag_testbit m2 ST_AUTO) in H3 by flag_index.
    rewrite Hdown in H1. rewrite Hauto in H2.
    rewrite Hsearch, Hup, Hauto, H2 in H3.
    apply orb_false_iff in H3. destruct H3 as [H3 H4].
    rewrite andb_true_r in H4.
    repeat split; try assumption. now apply Hdone. }
  split; [exact Hfrom_up|]. split; [exact Hfrom_down|].
  intros [Hu Hd]. apply Hfrom_up in Hu. apply Hfrom_down in Hd.
  destruct Hu as (Hu & _). destruct Hd as (_ & _ & Hd & _). congruence.
Qed.

(** X7.  With no event pending and no search running a pass is its display
    refresh: it sends the tuner no command and changes no flag. *)
Theorem loop_idle (env : loop_env) (m : machine) :
  flag m ST_GO_UP = false -> flag m ST_GO_DOWN = false ->
  flag m ST_SEARCH = false ->
  loop env m = (None, final (refresh env m), trace (refresh env m)) /\
  status (final (loop env m)) = status m /\
  radio_commands (trace (loop env m)) = [].
Proof.
  intros Hup Hdown Hsearch.
  assert (Hloop : loop env m
                  = (None, final (refresh env m), trace (refresh env m))).
  { rewrite loop_eq, refresh_eq.
    destruct (read_status env =? 1)%Z;
      rewrite poll_search_eq; unfold flag at 1; cbn [status];
      fold (flag m ST_SEARCH); rewrite Hsearch;
      rewrite go_up_eq; unfold flag at 1; cbn [status];
      fold (flag m ST_GO_UP); rewrite Hup;
      rewrite go_down_eq; unfold flag at 1; cbn [status];
      fold (flag m ST_GO_DOWN); rewrite Hdown;
      unfold final, trace; cbn [fst snd]; rewrite ?app_nil_r;
      destruct m; reflexivity. }
  split; [exact Hloop|]. rewrite Hloop. unfold final, trace; cbn [fst snd].
  split.
  - apply refresh_status.
  - apply refresh_no_command.
Qed.

Lemma loop_idle_witness :
  let m := {| frequency := 99.9; status := 1 |} in
  let env := tuned 99904696 in
  loop env m = (None, final (refresh env m), trace (refresh env m)) /\
  status (final (loop env m)) = status m /\
  radio_commands (trace (loop env m)) = [].
Proof.
  intros m env. apply (loop_idle env m); reflexivity.
Defined.



End OnePass.

(** ** The scale mapping at its edges and in between *)

Section ScaleEdges.

Local Open Scope Q_scope.

(** From 88.0 up the position is the floor of (f - 88) * 4, capped at 79. *)
Lemma lcdBase_floor (f : Q) :
  88 <= f -> lcdBase f = Z.min 79 (Qfloor ((f - 88) * 4)).
Proof.
  intros Hf. unfold lcdBase.
  rewrite float_to_int_floor by now apply scale_offset_nonneg.
  destruct (Z.ltb_spec 79 (Qfloor ((f - 88) * 4))); lia.
Qed.

Lemma scale_order (f g : Q) :
  88 <= f -> f <= g ->
  (lcdBase f <= lcdBase g)%Z /\ (lcdMajor f <= lcdMajor g)%Z.
Proof.
  intros Hf Hfg.
  assert (Hg : 88 <= g) by lra.
  assert (Hbase : (lcdBase f <= lcdBase g)%Z).
  { rewrite !lcdBase_floor by assumption.
    assert (Qfloor ((f - 88) * 4) <= Qfloor ((g - 88) * 4))%Z
      by (apply Qfloor_resp_le; lra).
    lia. }
  split; [exact Hbase|].
  pose proof (lcdBase_range f Hf). pose proof (lcdBase_range g Hg).
  unfold lcdMajor. rewrite !Z.quot_div_nonneg by lia.
  apply Z.div_le_mono; lia.
Qed.

(** X9.  The needle never moves left when the frequency goes up: the pixel
    position and the character cell are non-decreasing from 88.0 MHz on, as
    far as the position fits the 16-bit [int] (below 8280 MHz). *)
Theorem scale_is_monotone (f g : Q) :
  88 <= f -> f <= g -> in_int_range g ->
  (lcdBase f <= lcdBase g)%Z /\ (lcdMajor f <= lcdMajor g)%Z.
Proof. intros Hf Hfg _. exact (scale_order f g Hf Hfg). Qed.

Lemma scale_is_monotone_witness :
  88 <= 91.2 /\ 91.2 <= 104.7 /\ in_int_range 104.7 /\
  (lcdBase 91.2 <= lcdBase 104.7)%Z /\ (lcdMajor 91.2 <= lcdMajor 104.7)%Z.
Proof.
  assert (H1 : 88 <= 91.2) by discriminate.
  assert (H2 : 91.2 <= 104.7) by discriminate.
  assert (H3 : in_int_range 104.7) by (split; reflexivity).
  split; [exact H1|]. split; [exact H2|]. split; [exact H3|].
  exact (scale_is_monotone 91.2 104.7 H1 H2 H3).
Defined.

(** X10.  The upper clamp: from 107.75 MHz on, as far above the band as the
    position fits the 16-bit [int] (below 8280 MHz), the needle is in the
    last pixel column of the last cell. *)
Theorem scale_saturates_at_the_top (f : Q) :
  107.75 <= f -> in_int_range f ->
  lcdBase f = 79%Z /\ lcdMajor f = 15%Z /\ lcdMinor f = 4%Z.
Proof.
  intros Hf _.
  assert (Hbase : lcdBase f = 79%Z).
  { rewrite lcdBase_floor by lra.
    assert (79 <= Qfloor ((f - 88) * 4))%Z.
    { apply Qfloor_lower. change (inject_Z 79) with 79. lra. }
    lia. }
  unfold lcdMajor, lcdMinor. rewrite Hbase. repeat split.
Qed.

Lemma scale_saturates_at_the_top_witness :
  107.75 <= 250 /\ in_int_range 250 /\
  lcdBase 250 = 79%Z /\ lcdMajor 250 = 15%Z /\ lcdMinor 250 = 4%Z.
Proof.
  assert (H : 107.75 <= 250) by discriminate.
  assert (H' : in_int_range 250) by (split; reflexivity).
  split; [exact H|]. split; [exact H'|].
  exact (scale_saturates_at_the_top 250 H H').
Defined.

(** Below zero the conversion to [int] rounds up, toward zero. *)
Lemma float_to_int_negative (x : Q) :
  x < 0 -> float_to_int x = (- Qfloor (- x))%Z.
Proof.
  destruct x as [n d]. unfold Qlt, float_to_int, Qfloor, Qopp; simpl.
  intros Hn.
  rewrite <- (Z.opp_involutive n) at 1.
  rewrite Z.quot_opp_l by lia. rewrite Z.quot_div_nonneg by lia. reflexivity.
Qed.

(** The conversion of [(frequency - 88) * 4] fits the 16-bit [int] for the
    frequencies of [in_int_range]. *)
Lemma scale_offset_in_int (f : Q) :
  in_int_range f ->
  (-32768 <= float_to_int ((f - 88) * 4) <= 32767)%Z.
Proof.
  intros [Hlo Hhi]. destruct (Qlt_le_dec f 88) as [Hneg|Hpos].
  - rewrite float_to_int_negative by lra.
    assert (0 <= Qfloor (- ((f - 88) * 4)))%Z
      by (apply Qfloor_lower; change (inject_Z 0) with 0; lra).
    assert (Qfloor (- ((f - 88) * 4)) < 32768)%Z
      by (apply Qfloor_upper; change (inject_Z 32768) with 32768; lra).
    lia.
  - rewrite float_to_int_floor by now apply scale_offset_nonneg.
    assert (0 <= Qfloor ((f - 88) * 4))%Z
      by (apply Qfloor_lower; change (inject_Z 0) with 0; lra).
    assert (Qfloor ((f - 88) * 4) < 32768)%Z
      by (apply Qfloor_upper; change (inject_Z 32768) with 32768; lra).
    lia.
Qed.

(** X11.  There is no lower clamp.  Just below 88.0 MHz the truncation toward zero
    still gives position 0, the needle of 88.0; at 87.75 MHz and below, as
    far as the position fits the 16-bit [int] (above -8104 MHz), the
    position is negative. *)
Theorem scale_below_the_band (f : Q) :
  (87.75 < f < 88 ->
   lcdBase f = 0%Z /\ lcdMajor f = 0%Z /\ lcdMinor f = 0%Z) /\
  (f <= 87.75 -> in_int_range f ->
   (-32768 <= lcdBase f < 0)%Z).
Proof.
  split.
  - intros [Hlo Hhi].
    assert (Hbase : lcdBase f = 0%Z).
    { unfold lcdBase. rewrite float_to_int_negative by lra.
      assert (Hfl : Qfloor (- ((f - 88) * 4)) = 0%Z).
      { assert (0 <= Qfloor (- ((f - 88) * 4)))%Z
          by (apply Qfloor_lower; change (inject_Z 0) with 0; lra).
        assert (Qfloor (- ((f - 88) * 4)) < 1)%Z
          by (apply Qfloor_upper; change (inject_Z 1) with 1; lra).
        lia. }
      rewrite Hfl. reflexivity. }
    unfold lcdMajor, lcdMinor. rewrite Hbase. repeat split.
  - intros Hf Hint. pose proof (scale_offset_in_int f Hint) as Hrange.
    unfold lcdBase. rewrite float_to_int_negative in * by lra.
    assert (1 <= Qfloor (- ((f - 88) * 4)))%Z
      by (apply Qfloor_lower; change (inject_Z 1) with 1; lra).
    destruct (Z.ltb_spec 79 (- Qfloor (- ((f - 88) * 4)))); lia.
Qed.

Lemma scale_below_the_band_witness :
  (87.75 < 87.9 < 88 /\
   lcdBase 87.9 = 0%Z /\ lcdMajor 87.9 = 0%Z /\ lcdMinor 87.9 = 0%Z) /\
  (87.5 <= 87.75 /\ in_int_range 87.5 /\ (-32768 <= lcdBase 87.5 < 0)%Z).
Proof.
  assert (H1 : 87.75 < 87.9 < 88) by (split; reflexivity).
  assert (H2 : 87.5 <= 87.75) by discriminate.
  assert (H3 : in_int_range 87.5) by (split; reflexivity).
  split.
  - split; [exact H1|]. exact (proj1 (scale_below_the_band 87.9) H1).
  - split; [exact H2|]. split; [exact H3|].
    exact (proj2 (scale_below_the_band 87.5) H2 H3).
Defined.

(** One character cell is 1.25 MHz wide: two frequencies no further apart
    have their needles in the same cell or in neighbouring cells. *)
Lemma lcdMajor_step (f g : Q) :
  88 <= f -> f <= g -> g <= f + 1.25 ->
  (lcdMajor f <= lcdMajor g <= lcdMajor f + 1)%Z.
Proof.
  intros Hf Hfg Hnear.
  assert (Hg : 88 <= g) by lra.
  split; [apply (scale_order f g Hf Hfg)|].
  pose proof (lcdBase_range f Hf) as Hbf. pose proof (lcdBase_range g Hg) as Hbg.
  assert (Hbase : (lcdBase g <= lcdBase f + 5)%Z).
  { rewrite !lcdBase_floor by assumption.
    assert (Qfloor ((g - 88) * 4) < Qfloor ((f - 88) * 4) + 6)%Z.
    { apply Qfloor_upper.
      pose proof (Qlt_floor ((f - 88) * 4)) as Hfl.
      rewrite inject_Z_plus in Hfl |- *.
      change (inject_Z 1) with 1 in Hfl. change (inject_Z 6) with 6.
      revert Hfl. generalize (inject_Z (Qfloor ((f - 88) * 4))). intros z Hz.
      lra. }
    lia. }
  unfold lcdMajor. rewrite !Z.quot_div_nonneg by lia.
  replace (lcdBase f / 5 + 1)%Z with ((lcdBase f + 1 * 5) / 5)%Z
    by (rewrite Z.div_add by lia; reflexivity).
  apply Z.div_le_mono; lia.
Qed.

End ScaleEdges.

(** ** The needle on the display, where it behaves *)

Section NeedleDrawn.

Local Open Scope Q_scope.

(** X12.  From 88.0 MHz up, as far as the position fits the 16-bit [int]
    (below 8280 MHz), [updateScale] changes no global, writes the needle
    glyph [lcdMinor] (one of 0..4) at column [lcdMajor] of the top row and
    the blank scale glyph in the visible cells left and right of it, and
    leaves every other cell of the display as it was. *)
Theorem updateScale_draws (m : machine) (d : Lcd.display) (c r : Z) :
  88 <= frequency m -> in_int_range (frequency m) ->
  final (updateScale m) = m /\
  (0 <= lcdMinor (frequency m) <= 4)%Z /\
  Lcd.cell (Lcd.render (trace (updateScale m)) d) c r
  = if ((r =? 0) && (c =? lcdMajor (frequency m)))%Z
    then lcdMinor (frequency m)
    else if ((r =? 0) && (0 <=? c) && (c <=? 15)
             && ((c =? lcdMajor (frequency m) - 1)
                 || (c =? lcdMajor (frequency m) + 1)))%Z
    then SCALE_CLEAR
    else Lcd.cell d c r.
Proof.
  intros Hf _. rewrite updateScale_eq. unfold final, trace; cbn [fst snd].
  split; [reflexivity|]. split; [now apply lcdMinor_range|].
  now apply scale_calls_cells.
Qed.

Lemma updateScale_draws_witness :
  let m := {| frequency := 96.3; status := 0 |} in
  let d := screen [] in
  final (updateScale m) = m /\
  (0 <= lcdMinor 96.3 <= 4)%Z /\
  Lcd.cell (Lcd.render (trace (updateScale m)) d) 6 0 = 3%Z.
Proof.
  intros m d.
  assert (H : 88 <= frequency m) by discriminate.
  assert (H' : in_int_range (frequency m)) by (split; reflexivity).
  destruct (updateScale_draws m d 6 0 H H') as (H1 & H2 & H3).
  split; [exact H1|]. split; [exact H2|]. exact H3.
Defined.

(** X13.  When the dial shows a needle for the frequency [f] and nowhere else,
    redrawing it for a frequency within one cell width (1.25 MHz) of [f] -
    a manual step of 0.1 MHz in particular - leaves exactly one needle; both
    frequencies from 88.0 MHz up and below 8280 MHz, where the position
    fits the 16-bit [int]. *)
Theorem needle_follows_small_moves (f g : Q) (s : Z) (d : Lcd.display) :
  88 <= f -> 88 <= g -> in_int_range f -> in_int_range g ->
  - 1.25 <= g - f <= 1.25 ->
  (forall c, (0 <= c <= 15)%Z -> Lcd.is_needle (Lcd.cell d c 0) = true ->
             c = lcdMajor f) ->
  Lcd.needles
    (Lcd.render (trace (updateScale {| frequency := g; status := s |})) d)
  = 1%nat.
Proof.
  intros Hf Hg _ _ [Hlo Hhi] Hshown.
  rewrite updateScale_eq. unfold trace; cbn [snd frequency].
  apply updateScale_one_needle; [exact Hg|].
  intros c Hc Hneedle. apply Hshown in Hneedle; [subst c|exact Hc].
  destruct (Qlt_le_dec g f) as [Hgf|Hfg].
  - assert (H := lcdMajor_step g f Hg (Qlt_le_weak _ _ Hgf) ltac:(lra)). lia.
  - assert (H := lcdMajor_step f g Hf Hfg ltac:(lra)). lia.
Qed.

Lemma needle_follows_small_moves_witness :
  let d := Lcd.render (scale_calls 89.2) (screen []) in
  Lcd.needles
    (Lcd.render (trace (updateScale {| frequency := 89.2 + 0.1; status := 0 |})) d)
  = 1%nat.
Proof.
  intros d.
  apply (needle_follows_small_moves 89.2 (89.2 + 0.1) 0 d);
    try discriminate; try (split; reflexivity).
  - split; discriminate.
  - intros c Hc.
    assert (Hcases : (c = 0 \/ c = 1 \/ c = 2 \/ c = 3 \/ c = 4 \/ c = 5
                      \/ c = 6 \/ c = 7 \/ c = 8 \/ c = 9 \/ c = 10 \/ c = 11
                      \/ c = 12 \/ c = 13 \/ c = 14 \/ c = 15)%Z) by lia.
    repeat (destruct Hcases as [->|Hcases];
            [vm_compute; intros H; first [reflexivity | discriminate H]|]).
    subst c. vm_compute; intros H; first [reflexivity | discriminate H].
Defined.

End NeedleDrawn.

(** ** setup *)

Section Setup.

(** X14.  [setup] changes no global, tunes the radio to the stored frequency with
    its one tuner command, and whatever the display held before leaves the
    bare scale on the top row - sixteen blank scale glyphs, no needle - and
    an empty bottom row. *)
Theorem setup_draws_the_bare_scale (m : machine) (d : Lcd.display) :
  final (setup m) = m /\
  radio_commands (trace (setup m)) = [RadioSetFrequency (frequency m)] /\
  Lcd.line (Lcd.render (trace (setup m)) d) 0 = repeat SCALE_CLEAR 16 /\
  Lcd.line (Lcd.render (trace (setup m)) d) 1 = repeat (chr " ") 16 /\
  Lcd.needles (Lcd.render (trace (setup m)) d) = 0%nat.
Proof.
  destruct m as [f s]. repeat split.
Qed.

(** X15.  The five needle glyphs are the scale glyph with one more pixel column
    each: all of them differ from the blank scale glyph and from one
    another, and none has a pixel outside the five columns of a cell. *)
Theorem needle_glyphs_are_distinct (j j' : Z) :
  0 <= j <= 4 -> 0 <= j' <= 4 ->
  needleChar j <> scaleChar /\
  (needleChar j = needleChar j' -> j = j') /\
  Forall (fun row => 0 <= row < 32) (needleChar j).
Proof.
  intros Hj Hj'.
  assert (Cj : j = 0 \/ j = 1 \/ j = 2 \/ j = 3 \/ j = 4) by lia.
  assert (Cj' : j' = 0 \/ j' = 1 \/ j' = 2 \/ j' = 3 \/ j' = 4) by lia.
  destruct Cj as [->|[->|[->|[->| ->]]]];
    (split; [discriminate|]);
    (split; [|vm_compute; repeat constructor; discriminate]);
    destruct Cj' as [->|[->|[->|[->| ->]]]];
    intros H; first [reflexivity | discriminate H].
Qed.

Lemma needle_glyphs_are_distinct_witness :
  0 <= 1 <= 4 /\ 0 <= 3 <= 4 /\
  needleChar 1 <> scaleChar /\
  (needleChar 1 = needleChar 3 -> 1 = 3) /\
  Forall (fun row => 0 <= row < 32) (needleChar 1).
Proof.
  assert (H1 : 0 <= 1 <= 4) by lia.
  assert (H3 : 0 <= 3 <= 4) by lia.
  split; [exact H1|]. split; [exact H3|].
  exact (needle_glyphs_are_distinct 1 3 H1 H3).
Defined.

End Setup.

(** ** The signal percentage over the sixteen levels *)

Section SignalLevels.

(** X16.  For the sixteen signal levels the product level * 100 stays within a
    16-bit [int], the percentage is within 0..100 and does not decrease with
    the level, and it is 100 - the one value shown without the padding
    blank - at level 15 only. *)
Theorem percent_over_the_levels (a b : Z) :
  0 <= a <= b -> b <= 15 ->
  0 <= b * 100 <= 32767 /\
  0 <= percent a <= percent b /\ percent b <= 100 /\
  (percent b = 100 <-> b = 15).
Proof.
  intros Hab Hb. unfold percent.
  rewrite !Z.quot_div_nonneg by lia.
  assert (Ha15 : a * 100 / 15 <= b * 100 / 15) by (apply Z.div_le_mono; lia).
  assert (H0 : 0 <= a * 100 / 15) by (apply Z.div_pos; lia).
  assert (H100 : b * 100 / 15 <= 100)
    by (apply Z.div_le_upper_bound; lia).
  repeat split; try lia.
  - intros H. destruct (Z.eq_dec b 15) as [|Hne]; [assumption|].
    assert (b * 100 / 15 < 100) by (apply Z.div_lt_upper_bound; lia). lia.
  - intros ->. reflexivity.
Qed.

Lemma percent_over_the_levels_witness :
  0 <= 3 <= 14 /\ 14 <= 15 /\
  0 <= 14 * 100 <= 32767 /\
  0 <= percent 3 <= percent 14 /\ percent 14 <= 100 /\
  (percent 14 = 100 <-> 14 = 15).
Proof.
  assert (H1 : 0 <= 3 <= 14) by lia.
  assert (H2 : 14 <= 15) by lia.
  split; [exact H1|]. split; [exact H2|].
  exact (percent_over_the_levels 3 14 H1 H2).
Defined.

End SignalLevels.

(** ** The dial in single precision *)

Section DialInSinglePrecision.

Import Binary32.

Lemma in_dial (k : Z) : 880 <= k <= 1080 -> In k dial.
Proof.
  intros Hk. unfold dial. apply in_map_iff. exists (Z.to_nat (k - 880)).
  split; [lia | apply in_seq; lia].
Qed.

(** X19.  In single precision as in exact arithmetic: for every tenth of a MHz of
    the dial, the frequency that [loop] computes from the tuner's answer
    gives the pixel position that the exact tenth gives. *)
Theorem binary32_scale_position (k : Z) :
  880 <= k <= 1080 ->
  Binary32Scale.lcdBase (of_tenths k) = lcdBase (inject_Z k / 10).
Proof.
  intros Hk.
  assert (Hall : forallb (fun k => Binary32Scale.lcdBase (of_tenths k)
                                   =? lcdBase (inject_Z k / 10)) dial = true)
    by (vm_compute; reflexivity).
  rewrite forallb_forall in Hall.
  apply Z.eqb_eq, Hall, in_dial, Hk.
Qed.

Lemma binary32_scale_position_witness :
  880 <= 1013 <= 1080 /\
  Binary32Scale.lcdBase (of_tenths 1013) = lcdBase (inject_Z 1013 / 10).
Proof.
  assert (H : 880 <= 1013 <= 1080) by lia.
  split; [exact H | exact (binary32_scale_position 1013 H)].
Defined.

Lemma binary32_dial_steps_in_band_witness :
  880 <= 1079 <= 1080 /\
  in_band (step_up (of_tenths 1079)) = true /\
  in_band (step_down (of_tenths 1079)) = true /\
  in_band (step_down (step_up (of_tenths 1079))) = true.
Proof.
  assert (H : 880 <= 1079 <= 1080) by lia.
  split; [exact H | exact (binary32_dial_steps_in_band 1079 H)].
Defined.

End DialInSinglePrecision.

(** ** The stereo indicator *)

Section StereoIndicator.

Lemma render_app (t u : list effect) (d : Lcd.display) :
  Lcd.render (t ++ u) d = Lcd.render u (Lcd.render t d).
Proof. apply fold_left_app. Qed.

(** X17.  After every pass of [loop] that has a status snapshot, the last two
    cells of the bottom row show the two halves of the stereo glyph when the
    snapshot reports stereo, and two blanks when it does not - so a stereo
    indicator is gone with the first mono snapshot. *)
Theorem stereo_indicator (env : loop_env) (m : machine) (d : Lcd.display) :
  read_status env = 1 ->
  let shown := Lcd.render (trace (loop env m)) d in
  (Lcd.cell shown 14 1, Lcd.cell shown 15 1)
  = if truthy (stereo (buf env))
    then (STEREO_CHAR_S, STEREO_CHAR_T)
    else (chr " ", chr " ").
Proof.
  intros Hread shown. subst shown.
  destruct (loop_after_refresh env m) as (tail & Htrace & Htail).
  rewrite render_lcd_calls, Htrace, lcd_calls_app.
  rewrite (off_display_lcd_calls tail Htail), app_nil_r, <- render_lcd_calls.
  rewrite refresh_eq, Hread. simpl Z.eqb. cbv iota. unfold trace; cbn [snd].
  unfold reading_calls. rewrite !app_assoc, !render_app.
  destruct (truthy (stereo (buf env))); reflexivity.
Qed.

Lemma stereo_indicator_witness :
  let env := {| read_status := 1;
                buf := {| frequency_available := 100004120;
                          stereo := 1; signal_level := 11 |};
                process_search := 0 |} in
  let shown := Lcd.render (trace (loop env power_on)) (screen []) in
  (Lcd.cell shown 14 1, Lcd.cell shown 15 1) = (STEREO_CHAR_S, STEREO_CHAR_T).
Proof.
  intros env. exact (stereo_indicator env power_on (screen []) eq_refl).
Defined.

End StereoIndicator.

(** ** The stored frequency in single precision *)

Section FrequencyInBand.

Import Binary32 Loop32.

Local Open Scope Q_scope.

(** Within the band, as the float compares and as the rational it stands
    for. *)
Lemma dial_closed (k : Z) :
  (880 <= k <= 1080)%Z ->
  Forall (fun f => in_band f = true /\ 88 <= to_Q f <= 108)
    [of_tenths k; step_up (of_tenths k); step_down (of_tenths k);
     step_down (step_up (of_tenths k))].
Proof.
  intros Hk.
  assert (Hall : forallb
            (fun k =>
               forallb (fun f => in_band f && Qle_bool 88 (to_Q f)
                                 && Qle_bool (to_Q f) 108)
                 [of_tenths k; step_up (of_tenths k); step_down (of_tenths k);
                  step_down (step_up (of_tenths k))])
            dial = true) by (vm_compute; reflexivity).
  rewrite forallb_forall in Hall. specialize (Hall k (in_dial k Hk)).
  rewrite forallb_forall in Hall. apply Forall_forall. intros f Hf.
  specialize (Hall f Hf).
  apply andb_true_iff in Hall. destruct Hall as [Hall Hhi].
  apply andb_true_iff in Hall. destruct Hall as [Hband Hlo].
  apply Qle_bool_iff in Hlo, Hhi. auto.
Qed.

Lemma nearest_tenth32_tenths (hz : spec_float) :
  nearest_tenth32 hz = of_tenths (tenths32 hz).
Proof. reflexivity. Qed.

(** After a pass that adopts a snapshot the frequency is the adopted tenth,
    stepped up, stepped down, or stepped up and then down. *)
Lemma loop32_frequency (env : loop_env32) (m : machine32) :
  read_status32 env = 1%Z ->
  let f := of_tenths (tenths32 (frequency_available32 env)) in
  In (frequency32 (loop32 env m))
    [f; step_up f; step_down f; step_down (step_up f)].
Proof.
  intros Hread f. unfold loop32, refresh32. rewrite Hread.
  simpl Z.eqb. cbv iota. rewrite nearest_tenth32_tenths. fold f.
  generalize (status32 m). intros s.
  unfold poll_search32; cbn [status32 frequency32].
  destruct (truthy (bitRead s ST_SEARCH));
    [destruct (process_search32 env =? 1)%Z|];
    unfold go_up32; cbn [status32 frequency32];
    match goal with |- context [truthy (bitRead ?x ST_GO_UP)] =>
      destruct (truthy (bitRead x ST_GO_UP)) end;
    try match goal with |- context [truthy (bitRead ?x ST_AUTO) && ?y] =>
      destruct (truthy (bitRead x ST_AUTO) && y) end;
    cbv zeta; cbn [status32 frequency32];
    unfold go_down32; cbn [status32 frequency32];
    match goal with |- context [truthy (bitRead ?x ST_GO_DOWN)] =>
      destruct (truthy (bitRead x ST_GO_DOWN)) end;
    try match goal with |- context [truthy (bitRead ?x ST_AUTO) && ?y] =>
      destruct (truthy (bitRead x ST_AUTO) && y) end;
    cbv zeta; cbn [status32 frequency32 In]; tauto.
Qed.

Lemma loop32_in_band (env : loop_env32) (m : machine32) :
  adopts_in_band (Loop32 env) ->
  in_band (frequency32 (loop32 env m)) = true /\
  88 <= to_Q (frequency32 (loop32 env m)) <= 108.
Proof.
  intros [Hread Hk].
  pose proof (dial_closed _ Hk) as Hdial. rewrite Forall_forall in Hdial.
  apply Hdial. now apply loop32_frequency.
Qed.

Lemma run32_in_band (es : list event32) (m : machine32) :
  Forall adopts_in_band es ->
  in_band (frequency32 m) = true /\ 88 <= to_Q (frequency32 m) <= 108 ->
  in_band (frequency32 (run32 es m)) = true /\
  88 <= to_Q (frequency32 (run32 es m)) <= 108.
Proof.
  intros Hes. revert m. induction Hes as [|e es He _ IH]; intros m Hm.
  - exact Hm.
  - unfold run32. cbn [fold_left]. apply IH.
    destruct e as [pinB| |env]; cbn [step32].
    + exact Hm.
    + exact Hm.
    + now apply loop32_in_band.
Qed.

(** C1 (as the sketch has it, in the floats of the target).  After
    initialization and after every handler invocation and pass of [loop],
    the stored frequency lies in [88.0, 108.0] MHz, as long as every pass of
    [loop] adopts a status snapshot whose frequency rounds to a tenth of a
    MHz from 88.0 to 108.0; and whatever the frequency was before, it lies
    in [88.0, 108.0] after any one pass that adopts such a snapshot: the
    manual increment, the manual decrement, and both in a row keep the
    bound from the adopted frequency. *)
Theorem C1_frequency_stays_in_band
  (es : list event32) (env : loop_env32) (m : machine32) :
  Forall adopts_in_band es ->
  adopts_in_band (Loop32 env) ->
  (in_band (frequency32 (run32 es power_on32)) = true /\
   88 <= to_Q (frequency32 (run32 es power_on32)) <= 108) /\
  (in_band (frequency32 (loop32 env m)) = true /\
   88 <= to_Q (frequency32 (loop32 env m)) <= 108).
Proof.
  intros Hes Henv. split.
  - apply run32_in_band; [exact Hes|].
    split; [reflexivity | split; discriminate].
  - now apply loop32_in_band.
Qed.

Lemma C1_frequency_stays_in_band_witness :
  let env := {| read_status32 := 1;
                frequency_available32 := of_int 107901208;
                process_search32 := 0 |} in
  let es := [Encoder32 true; Loop32 env; Encoder32 true; Switch32;
             Encoder32 false; Loop32 env] in
  let m := {| frequency32 := of_int 250; status32 := 4 |} in
  (Forall adopts_in_band es /\ adopts_in_band (Loop32 env)) /\
  (in_band (frequency32 (run32 es power_on32)) = true /\
   88 <= to_Q (frequency32 (run32 es power_on32)) <= 108) /\
  (in_band (frequency32 (loop32 env m)) = true /\
   88 <= to_Q (frequency32 (loop32 env m)) <= 108).
Proof.
  intros env es m.
  assert (Henv : adopts_in_band (Loop32 env)).
  { split; [reflexivity|]. vm_compute. split; discriminate. }
  assert (Hes : Forall adopts_in_band es).
  { repeat (apply Forall_cons; [first [exact I | exact Henv]|]).
    apply Forall_nil. }
  split; [exact (conj Hes Henv)|].
  exact (C1_frequency_stays_in_band es env m Hes Henv).
Defined.

(** Passes without a snapshot are not bounded this way: the rounding of the
    steps adds up.  From power-on, 201 goUp events each consumed by a pass
    without a snapshot end above 108; and after 88.3 is adopted, four
    goDown events consumed by passes without a snapshot end below 88. *)
Lemma steps_without_snapshot_leave_the_band :
  let quiet := {| read_status32 := 0; frequency_available32 := of_int 0;
                  process_search32 := 0 |} in
  let adopt := {| read_status32 := 1;
                  frequency_available32 := of_int 88297752;
                  process_search32 := 0 |} in
  let up := [Encoder32 true; Loop32 quiet] in
  let down := [Encoder32 false; Loop32 quiet] in
  108 < to_Q (frequency32 (run32 (List.concat (repeat up 201)) power_on32)) /\
  to_Q (frequency32
          (run32 (Loop32 adopt :: List.concat (repeat down 4)) power_on32)) < 88.
Proof. vm_compute. split; reflexivity. Qed.

End FrequencyInBand.

(** ** Six steps up, in single precision *)

Section SixStepsInSinglePrecision.

Import Binary32 Loop32.

(** In manual mode, idle: the pass sets [frequency] to the refreshed
    float, stepped up. *)
Lemma tuning_pass32_eq (env : loop_env32) (f : spec_float) :
  run32 (tuning_pass32 env) {| frequency32 := f; status32 := 0 |}
  = {| frequency32 :=
         step_up (frequency32
                    (refresh32 env {| frequency32 := f; status32 := 4 |}));
       status32 := 0 |}.
Proof.
  unfold run32, tuning_pass32. cbn [fold_left step32].
  unfold isrEncoder32. cbn [status32 frequency32].
  change (bitWrite 0 ST_GO_UP 1) with 4.
  unfold loop32, refresh32.
  destruct (read_status32 env =? 1); reflexivity.
Qed.

Lemma refresh32_tracking (env : loop_env32) (m : machine32) (k : Z) :
  read_status32 env <> 1 \/
  (read_status32 env = 1 /\ tenths32 (frequency_available32 env) = k) ->
  frequency32 (refresh32 env m)
  = if read_status32 env =? 1 then of_tenths k else frequency32 m.
Proof.
  unfold refresh32. intros [Hq|[Hr Hk]].
  - destruct (Z.eqb_spec (read_status32 env) 1); [contradiction|reflexivity].
  - rewrite Hr. cbn [Z.eqb Pos.eqb frequency32].
    unfold nearest_tenth32, floor32. fold (tenths32 (frequency_available32 env)).
    rewrite Hk. reflexivity.
Qed.

Lemma after32_cons (j : nat) (env : loop_env32) (envs : list loop_env32)
    (m : machine32) :
  after32 (S j) (env :: envs) m = after32 j envs (run32 (tuning_pass32 env) m).
Proof.
  unfold after32, run32. cbn [firstn flat_map]. rewrite fold_left_app.
  reflexivity.
Qed.

Lemma after32_0 (envs : list loop_env32) (m : machine32) :
  after32 0 envs m = frequency32 m.
Proof. reflexivity. Qed.

(** The six passes in single precision, over every choice of the passes
    that have a status snapshot: after the [j]-th pass (from 0) the float
    in [frequency] is the one nearest to 88.1 + j/10, or the float just
    below that one. *)
Lemma six_steps32 (envs : list loop_env32) (m : machine32) :
  frequency32 m = of_int 88 -> status32 m = 0 ->
  List.length envs = 6%nat -> tracking32 880 envs ->
  forall j, (j < 6)%nat ->
    let f := after32 (S j) envs m in
    let k := 881 + Z.of_nat j in
    (f = of_tenths k \/ f = SFpred prec emax (of_tenths k)) /\
    (- (1 # 100000) <= to_Q f - inject_Z k / 10 <= 1 # 100000)%Q.
Proof.
  intros Hf Hs Hlen Htrack j Hj.
  destruct envs as [|e0 [|e1 [|e2 [|e3 [|e4 [|e5 [|e6 envs]]]]]]];
    try discriminate Hlen.
  cbn [tracking32] in Htrack.
  destruct Htrack as (H0 & H1 & H2 & H3 & H4 & H5 & _).
  destruct m as [f0 s0]. cbn [frequency32 status32] in Hf, Hs. subst f0 s0.
  destruct j as [|[|[|[|[|[|j]]]]]]; [..|lia]; cbv zeta;
    rewrite !after32_cons, after32_0, !tuning_pass32_eq;
    rewrite ?(refresh32_tracking e0 _ _ H0), ?(refresh32_tracking e1 _ _ H1),
      ?(refresh32_tracking e2 _ _ H2), ?(refresh32_tracking e3 _ _ H3),
      ?(refresh32_tracking e4 _ _ H4), ?(refresh32_tracking e5 _ _ H5);
    cbn [frequency32];
    repeat match goal with
           | |- context [read_status32 ?e =? 1] =>
               destruct (read_status32 e =? 1)
           end;
    (split;
     [first [left; vm_compute; reflexivity | right; vm_compute; reflexivity]
     | split; apply Qle_bool_iff; vm_compute; reflexivity]).
Qed.

End SixStepsInSinglePrecision.

(** ** Six steps up, on the display *)

Section SixStepsOnTheDial.

Local Open Scope Q_scope.

(** Writing glyphs moves the cursor along its row and touches no other
    row. *)
Lemma puts_row (glyphs : list Z) (d : Lcd.display) :
  Lcd.row (Lcd.puts d glyphs) = Lcd.row d /\
  (Lcd.row d <> 0%Z ->
   forall c, Lcd.cell (Lcd.puts d glyphs) c 0 = Lcd.cell d c 0).
Proof.
  revert d. induction glyphs as [|g glyphs IH]; intros d; [split; reflexivity|].
  unfold Lcd.puts in *. cbn [fold_left].
  destruct (IH (Lcd.put d g)) as [Hrow Hcell]. cbn [Lcd.put Lcd.row] in *.
  split; [exact Hrow|].
  intros Hd c. rewrite Hcell by exact Hd. cbn [Lcd.put Lcd.cell].
  destruct (Z.eqb_spec 0 (Lcd.row d)); [congruence|].
  now rewrite andb_false_r.
Qed.

Lemma apply_bottom_row (e : effect) (d : Lcd.display) :
  keeps_bottom_row e = true -> Lcd.row d = 1%Z ->
  Lcd.row (Lcd.apply d e) = 1%Z /\
  forall c, Lcd.cell (Lcd.apply d e) c 0 = Lcd.cell d c 0.
Proof.
  intros He Hd.
  assert (Hne : Lcd.row d <> 0%Z) by (rewrite Hd; discriminate).
  destruct e; try discriminate He; cbn [Lcd.apply];
    try (split; [exact Hd | reflexivity]).
  - cbn [keeps_bottom_row] in He. apply Z.eqb_eq in He. subst row.
    split; reflexivity.
  - destruct (puts_row [glyph] d) as [Hrow Hcell].
    split; [rewrite <- Hd; exact Hrow | now apply Hcell].
  - destruct (puts_row (Lcd.decimal n) d) as [Hrow Hcell].
    split; [rewrite <- Hd; exact Hrow | now apply Hcell].
  - destruct (puts_row (Lcd.printFloat x (Z.to_nat digits)) d) as [Hrow Hcell].
    split; [rewrite <- Hd; exact Hrow | now apply Hcell].
  - destruct (puts_row (Lcd.codes s) d) as [Hrow Hcell].
    split; [rewrite <- Hd; exact Hrow | now apply Hcell].
Qed.

(** Display calls made with the cursor in the bottom row leave the top row
    as it is. *)
Lemma render_bottom_row (t : list effect) (d : Lcd.display) :
  forallb keeps_bottom_row t = true -> Lcd.row d = 1%Z ->
  Lcd.row (Lcd.render t d) = 1%Z /\
  forall c, Lcd.cell (Lcd.render t d) c 0 = Lcd.cell d c 0.
Proof.
  revert d. induction t as [|e t IH]; intros d Ht Hd; [split; [exact Hd|reflexivity]|].
  cbn [forallb] in Ht. apply andb_true_iff in Ht. destruct Ht as [He Ht].
  destruct (apply_bottom_row e d He Hd) as [Hrow Hcell].
  unfold Lcd.render in *. cbn [fold_left].
  destruct (IH (Lcd.apply d e) Ht Hrow) as [Hrow' Hcell'].
  split; [exact Hrow'|]. intros c. now rewrite Hcell', Hcell.
Qed.

Lemma render_from_bottom (c0 : Z) (t : list effect) (d : Lcd.display) :
  forallb keeps_bottom_row t = true ->
  forall c, Lcd.cell (Lcd.render (LcdSetCursor c0 1 :: t) d) c 0
            = Lcd.cell d c 0.
Proof.
  intros Ht c.
  change (Lcd.render (LcdSetCursor c0 1 :: t) d)
    with (Lcd.render t {| Lcd.col := c0; Lcd.row := 1; Lcd.cell := Lcd.cell d |}).
  destruct (render_bottom_row t
              {| Lcd.col := c0; Lcd.row := 1; Lcd.cell := Lcd.cell d |}
              Ht eq_refl) as [_ Hcell].
  rewrite Hcell. reflexivity.
Qed.

(** Of the calls that show a reading, only those of [updateScale] write to
    the top row. *)
Lemma reading_top_row (f : Q) (b : snapshot) (d : Lcd.display) (c : Z) :
  Lcd.cell (Lcd.render (reading_calls f b) d) c 0
  = Lcd.cell (Lcd.render (scale_calls f) d) c 0.
Proof.
  unfold reading_calls. rewrite render_app.
  generalize (Lcd.render (scale_calls f) d). intros d1.
  cbn [app]. apply render_from_bottom.
  destruct (percent (signal_level b) <? 100)%Z, (Qltb f 100),
    (truthy (stereo b)); reflexivity.
Qed.

(** What a tuning pass leaves on the dial: with a status snapshot, what
    [updateScale] draws for the frequency held before the step; without
    one, what was there. *)
Lemma pass_dial (env : loop_env) (m : machine) (d : Lcd.display) (k : Z) :
  status m = 0%Z ->
  frequency m == inject_Z k / 10 ->
  (880 <= k < 1080)%Z ->
  quiet env \/ reports env k ->
  forall c,
    Lcd.cell (Lcd.render (trace (run (tuning_pass env) m)) d) c 0
    = if (read_status env =? 1)%Z
      then Lcd.cell (Lcd.render (scale_calls (inject_Z k / 10)) d) c 0
      else Lcd.cell d c 0.
Proof.
  intros Hs Hf Hk Henv c.
  pose proof (refreshed_tenths env (frequency m) k Henv Hf) as Href.
  assert (Hlt : Qltb (refreshed env (frequency m)) 108 = true).
  { apply Qltb_lt. rewrite Href. change 108 with (inject_Z 108).
    apply Qnot_le_lt. intros Hle. apply tenths_lower in Hle. lia. }
  rewrite (tuning_pass_eq env m Hs Hlt). unfold trace at 1. cbn [snd].
  rewrite !render_app.
  change (Lcd.render [Delay 50] d) with d.
  match goal with
  | |- Lcd.cell (Lcd.render [RadioSetFrequency ?x] ?d') c 0 = _ =>
      change (Lcd.render [RadioSetFrequency x] d') with d'
  end.
  rewrite refresh_eq.
  destruct Henv as [Hq|[Hr Hfl]].
  - destruct (Z.eqb_spec (read_status env) 1); [contradiction|].
    unfold trace. cbn [snd].
    apply render_from_bottom. reflexivity.
  - rewrite Hr. cbn [Z.eqb Pos.eqb]. cbv iota. unfold trace. cbn [snd].
    rewrite render_app, reading_top_row.
    unfold nearest_tenth, floor. rewrite Hfl.
    rewrite !scale_calls_cells
      by (change 88 with (inject_Z 88); apply tenths_lower; lia).
    rewrite render_from_bottom by reflexivity. reflexivity.
Qed.

Lemma dial_after_cons (j : nat) (env : loop_env) (envs : list loop_env)
    (m : machine) (d : Lcd.display) :
  dial_after (S j) (env :: envs) m d
  = dial_after j envs (final (run (tuning_pass env) m))
      (Lcd.render (trace (run (tuning_pass env) m)) d).
Proof.
  unfold dial_after. cbn [firstn flat_map]. rewrite run_app.
  unfold trace at 1. cbn [snd]. rewrite render_app. reflexivity.
Qed.

Lemma line_unchanged (d d' : Lcd.display) :
  (forall c, Lcd.cell d' c 0 = Lcd.cell d c 0) ->
  Lcd.line d' 0 = Lcd.line d 0.
Proof.
  intros H. unfold Lcd.line. apply map_ext. intros c. apply H.
Qed.

Lemma line_needle_at_0 (d d' : Lcd.display) (g : Z) :
  Lcd.cell d' 0 0 = g ->
  Lcd.cell d' 1 0 = SCALE_CLEAR ->
  (forall c, (2 <= c)%Z -> Lcd.cell d' c 0 = Lcd.cell d c 0) ->
  Lcd.line d' 0 = g :: SCALE_CLEAR :: skipn 2 (Lcd.line d 0).
Proof.
  intros H0 H1 H. unfold Lcd.line.
  change (seq 0 16) with (0 :: 1 :: seq 2 14)%nat.
  cbn [map skipn]. change (Z.of_nat 0) with 0%Z. change (Z.of_nat 1) with 1%Z.
  rewrite H0, H1. do 2 f_equal.
  apply map_ext_in. intros c Hc. apply in_seq in Hc. apply H. lia.
Qed.

(** Below 88.5 MHz the needle is in the first cell of the dial. *)
Lemma lcdMajor_first_cell (k : Z) :
  (880 <= k <= 885)%Z -> lcdMajor (inject_Z k / 10) = 0%Z.
Proof.
  intros Hk.
  assert (H : (k = 880 \/ k = 881 \/ k = 882 \/ k = 883 \/ k = 884 \/
               k = 885)%Z) by lia.
  destruct H as [->|[->|[->|[->|[->| ->]]]]]; reflexivity.
Qed.

(** Pass by pass: a pass with a status snapshot puts the needle glyph of
    the frequency held before the step into the first cell and the blank
    scale glyph next to it; a pass without one leaves the dial alone. *)
Lemma dial_trail (envs : list loop_env) :
  forall (k : Z) (m : machine) (d : Lcd.display),
    status m = 0%Z ->
    frequency m == inject_Z k / 10 ->
    (880 <= k)%Z ->
    (k + Z.of_nat (List.length envs) <= 886)%Z ->
    tracking k envs ->
    forall j, (j < List.length envs)%nat ->
      if (read_status (nth j envs no_status) =? 1)%Z
      then Lcd.line (dial_after (S j) envs m d) 0
           = lcdMinor (inject_Z (k + Z.of_nat j) / 10)
               :: SCALE_CLEAR :: skipn 2 (Lcd.line (dial_after j envs m d) 0)
      else Lcd.line (dial_after (S j) envs m d) 0
           = Lcd.line (dial_after j envs m d) 0.
Proof.
  induction envs as [|env envs IH]; intros k m d Hs Hf Hlo Hhi Htrack j Hj;
    [cbn [List.length] in Hj; lia|].
  destruct Htrack as [Henv Htrack]. cbn [List.length] in Hhi, Hj.
  destruct j as [|j].
  - rewrite dial_after_cons.
    change (dial_after 0 envs ?m' ?d') with d'.
    change (dial_after 0 (env :: envs) m d) with d.
    cbn [nth]. rewrite Z.add_0_r.
    pose proof (pass_dial env m d k Hs Hf ltac:(lia) Henv) as Hcell.
    destruct (read_status env =? 1)%Z.
    + pose proof (lcdMajor_first_cell k ltac:(lia)) as HM.
      assert (H88 : 88 <= inject_Z k / 10)
        by (change 88 with (inject_Z 88); apply tenths_lower; lia).
      apply line_needle_at_0.
      * rewrite Hcell, scale_calls_cells, HM by exact H88. reflexivity.
      * rewrite Hcell, scale_calls_cells, HM by exact H88. reflexivity.
      * intros c Hc. rewrite Hcell, scale_calls_cells, HM by exact H88.
        cbn [Z.eqb andb].
        destruct (Z.eqb_spec c 0); [lia|].
        destruct (Z.eqb_spec c (0 - 1)); [lia|].
        destruct (Z.eqb_spec c (0 + 1)); [lia|].
        cbn [orb]. rewrite andb_false_r. reflexivity.
    + apply line_unchanged. exact Hcell.
  - rewrite !dial_after_cons. cbn [nth].
    pose proof (refreshed_tenths env (frequency m) k Henv Hf) as Href.
    assert (Hlt : Qltb (refreshed env (frequency m)) 108 = true).
    { apply Qltb_lt. rewrite Href. change 108 with (inject_Z 108).
      apply Qnot_le_lt. intros Hle. apply tenths_lower in Hle. lia. }
    rewrite (tuning_pass_eq env m Hs Hlt).
    unfold final at 1 2, trace at 1 2. cbn [fst snd].
    set (m1 := {| frequency := refreshed env (frequency m) + 0.1;
                  status := 0 |}).
    assert (Hf1 : frequency m1 == inject_Z (k + 1) / 10).
    { subst m1. cbn [frequency]. rewrite Href, inject_Z_plus.
      change (inject_Z 1) with 1. generalize (inject_Z k); intros x. qlra. }
    replace (k + Z.of_nat (S j))%Z with (k + 1 + Z.of_nat j)%Z by lia.
    apply (IH (k + 1)%Z m1 _ eq_refl Hf1); [lia | lia | exact Htrack | lia].
Qed.

(** C7 (as the sketch has it).  Starting from frequency = 88.0 with
    autoMode = false and no search in progress, six consecutive goUp
    events, each processed in its own pass of [loop] in which the tuner
    either reports nothing or reports the frequency the sketch holds,
    advance the frequency by 0.1 per event to reach 88.6, and exactly six
    retune commands are issued, for 88.1 up to 88.6.  The dial needle is
    drawn once in each of those passes that has a status snapshot, six
    times when all six have one, and it is drawn for the frequency held
    before the step of that pass: the [j]-th pass (from 0) with a snapshot
    leaves the needle glyph of 88.0 + j/10 MHz (glyphs 0, 0, 0, 1, 1, 2)
    in the first cell of the top row and the blank scale glyph in the
    second, the other cells as they were; a pass without a snapshot
    leaves the top row as it was.  The needle for 88.6 is not drawn.
    The tenths are those of exact arithmetic; in the single precision of
    the target the float in [frequency] after the [j]-th pass, which that
    pass hands to the tuner, is the float nearest to 88.1 + j/10 or the
    float just below it, within 10 Hz of the tenth. *)
Theorem C7_six_steps_up (envs : list loop_env) (m : machine)
    (d : Lcd.display) :
  frequency m == 88 ->
  status m = 0%Z ->
  List.length envs = 6%nat ->
  tracking 880 envs ->
  let r := run (flat_map tuning_pass envs) m in
  frequency (final r) == 88.6 /\
  Forall2 Qeq (retunes (trace r)) [88.1; 88.2; 88.3; 88.4; 88.5; 88.6] /\
  List.length (retunes (trace r)) = 6%nat /\
  needle_draws (trace r) = readings envs /\
  (Forall (fun env => read_status env = 1%Z) envs ->
   needle_draws (trace r) = 6%nat) /\
  dial_after 6 envs m d = Lcd.render (trace r) d /\
  (forall j, (j < 6)%nat ->
     let before := Lcd.line (dial_after j envs m d) 0 in
     let after := Lcd.line (dial_after (S j) envs m d) 0 in
     if (read_status (nth j envs no_status) =? 1)%Z
     then after
          = nth j [0; 0; 0; 1; 1; 2]%Z 0%Z :: SCALE_CLEAR :: skipn 2 before
     else after = before) /\
  (forall (envs32 : list Loop32.loop_env32) (m32 : Loop32.machine32),
     Loop32.frequency32 m32 = Binary32.of_int 88 ->
     Loop32.status32 m32 = 0%Z ->
     List.length envs32 = 6%nat ->
     tracking32 880 envs32 ->
     forall j, (j < 6)%nat ->
       let f := after32 (S j) envs32 m32 in
       let k := (881 + Z.of_nat j)%Z in
       (f = Binary32.of_tenths k \/
        f = SFpred Binary32.prec Binary32.emax (Binary32.of_tenths k)) /\
       - (1 # 100000) <= Binary32.to_Q f - inject_Z k / 10 <= 1 # 100000).
Proof.
  intros Hf Hs Hlen Htrack r.
  assert (Hf' : frequency m == inject_Z 880 / 10) by (rewrite Hf; reflexivity).
  destruct (passes_spec envs 880 m Hs Hf' ltac:(rewrite Hlen; simpl; lia) Htrack)
    as (_ & Hfin & Hret & Hdraws).
  fold r in Hfin, Hret, Hdraws. rewrite Hlen in Hfin, Hret.
  assert (Hret' : Forall2 Qeq (retunes (trace r))
                    [88.1; 88.2; 88.3; 88.4; 88.5; 88.6]).
  { apply Forall2_Qeq_trans with (1 := Hret).
    cbn [tenths_from]. repeat constructor. }
  split; [rewrite Hfin; reflexivity|].
  split; [exact Hret'|].
  split; [apply Forall2_length in Hret'; exact Hret'|].
  split; [exact Hdraws|].
  split.
  { intros Hall. rewrite Hdraws, <- Hlen. unfold readings. f_equal.
    clear -Hall. induction Hall as [|env envs Hr _ IH]; [reflexivity|].
    cbn [filter]. rewrite Hr. simpl Z.eqb. cbv iota. now rewrite IH. }
  split.
  { unfold dial_after. rewrite <- Hlen, firstn_all. reflexivity. }
  split.
  { intros j Hj before after. subst before after.
    pose proof (dial_trail envs 880 m d Hs Hf' ltac:(lia)
                  ltac:(rewrite Hlen; simpl; lia) Htrack j
                  ltac:(rewrite Hlen; exact Hj)) as Htrail.
    assert (Hglyph : lcdMinor (inject_Z (880 + Z.of_nat j) / 10)
                     = nth j [0; 0; 0; 1; 1; 2]%Z 0%Z).
    { do 6 (destruct j as [|j]; [reflexivity|]). lia. }
    rewrite Hglyph in Htrail. exact Htrail. }
  intros envs32 m32 Hf32 Hs32 Hlen32 Htrack32 j Hj.
  exact (six_steps32 envs32 m32 Hf32 Hs32 Hlen32 Htrack32 j Hj).
Qed.

Lemma C7_six_steps_up_witness :
  let r := run (flat_map tuning_pass echo) power_on in
  let d := screen [] in
  (frequency power_on == 88 /\ status power_on = 0%Z /\
   List.length echo = 6%nat /\ tracking 880 echo) /\
  (frequency (final r) == 88.6 /\
   Forall2 Qeq (retunes (trace r)) [88.1; 88.2; 88.3; 88.4; 88.5; 88.6] /\
   List.length (retunes (trace r)) = 6%nat /\
   needle_draws (trace r) = readings echo /\
   (Forall (fun env => read_status env = 1%Z) echo ->
    needle_draws (trace r) = 6%nat) /\
   dial_after 6 echo power_on d = Lcd.render (trace r) d /\
   (forall j, (j < 6)%nat ->
      let before := Lcd.line (dial_after j echo power_on d) 0 in
      let after := Lcd.line (dial_after (S j) echo power_on d) 0 in
      if (read_status (nth j echo no_status) =? 1)%Z
      then after
           = nth j [0; 0; 0; 1; 1; 2]%Z 0%Z :: SCALE_CLEAR :: skipn 2 before
      else after = before)) /\
  (Loop32.frequency32 Loop32.power_on32 = Binary32.of_int 88 /\
   Loop32.status32 Loop32.power_on32 = 0%Z /\
   List.length echo32 = 6%nat /\ tracking32 880 echo32) /\
  (forall j, (j < 6)%nat ->
     let f := after32 (S j) echo32 Loop32.power_on32 in
     let k := (881 + Z.of_nat j)%Z in
     (f = Binary32.of_tenths k \/
      f = SFpred Binary32.prec Binary32.emax (Binary32.of_tenths k)) /\
     - (1 # 100000) <= Binary32.to_Q f - inject_Z k / 10 <= 1 # 100000).
Proof.
  intros r d.
  assert (Hf : frequency power_on == 88) by reflexivity.
  assert (Hs : status power_on = 0%Z) by reflexivity.
  assert (Hlen : List.length echo = 6%nat) by reflexivity.
  assert (Htrack : tracking 880 echo).
  { simpl. repeat split; right; split; reflexivity. }
  assert (Hf32 : Loop32.frequency32 Loop32.power_on32 = Binary32.of_int 88)
    by reflexivity.
  assert (Hs32 : Loop32.status32 Loop32.power_on32 = 0%Z) by reflexivity.
  assert (Hlen32 : List.length echo32 = 6%nat) by reflexivity.
  assert (Htrack32 : tracking32 880 echo32).
  { cbn [tracking32 echo32 map]. repeat split; right; split;
      vm_compute; reflexivity. }
  destruct (C7_six_steps_up echo power_on d Hf Hs Hlen Htrack)
    as (P1 & P2 & P3 & P4 & P5 & P6 & P7 & P8).
  split; [exact (conj Hf (conj Hs (conj Hlen Htrack)))|].
  split; [exact (conj P1 (conj P2 (conj P3 (conj P4 (conj P5 (conj P6 P7))))))|].
  split; [exact (conj Hf32 (conj Hs32 (conj Hlen32 Htrack32)))|].
  exact (P8 echo32 Loop32.power_on32 Hf32 Hs32 Hlen32 Htrack32).
Defined.

End SixStepsOnTheDial.
